(** * ReadmeStats: the statistics aggregation and the grading of
    [scripts/generate_stats.py]

    The development embeds the script's functions as Rocq functions and
    proves the properties its specification states about them.

    - Counts are Python integers: [Z].
    - [calculate_grade] multiplies the commit count by the float [0.5], so
      the score can be a float.  [Grader] gives the arithmetic of the
      function in exact rationals; [GraderRun] gives its evaluation by the
      interpreter, with the conversion of integers to doubles, its rounding
      and its [OverflowError]; [RunFacts] relates the two.
    - Text is [string]; the response headers are Latin-1 text, one
      character per byte. *)

From Stdlib Require Import ZArith QArith Qminmax Lia Lqa List Bool.
From Stdlib Require Import Ascii String.
Import ListNotations.

Open Scope string_scope.

(** ** The statistics record *)

(** The dict returned by [get_user_stats]; every key is present. *)
Record stats : Type := mkStats {
  username : string;
  name : string;
  avatar_base64 : string;
  repos : Z;
  followers : Z;
  following : Z;
  stars : Z;
  prs : Z;
  issues : Z;
  commits : Z
}.

(** ** Grading *)

Module Grader.

Open Scope Q_scope.

(** [score += min(raw * weight, cap)] *)
Definition add_capped (score : Q) (raw : Z) (weight cap : Q) : Q :=
  score + Qmin (inject_Z raw * weight) cap.

(** The first half of [calculate_grade], the accumulation of the score, in
    exact arithmetic: the number the sum stands for.
    [GraderRun.score_run] is its evaluation with Python's numbers. *)
Definition score (s : stats) : Q :=
  let score := 0 in
  let score := add_capped score (repos s) 2 50 in
  let score := add_capped score (followers s) 1 50 in
  let score := add_capped score (stars s) 3 75 in
  let score := add_capped score (prs s) 5 75 in
  let score := add_capped score (commits s) 0.5 50 in
  let score := add_capped score (issues s) 2 25 in
  score.

(** [score >= bound] *)
Definition ge (score bound : Q) : bool := Qle_bool bound score.

(** The second half of [calculate_grade]: the chain of thresholds, with
    the labels the function returns. *)
Definition grade_of_score (score : Q) : string :=
  if ge score 300 then "S"
  else if ge score 200 then "+A"
  else if ge score 150 then "A"
  else if ge score 100 then "+B"
  else if ge score 75 then "B"
  else if ge score 50 then "+C"
  else if ge score 25 then "C"
  else "D".

(** The label of the exact score: what [calculate_grade] returns whenever
    it returns ([RunFacts.run_agrees]). *)
Definition calculate_grade (s : stats) : string :=
  grade_of_score (score s).

End Grader.

(** ** Text helpers used by the aggregation *)

Module Text.

Definition dquote : ascii := "034"%char.

(** The literal [rel="last"]. *)
Definition rel_last : string :=
  "rel=" ++ String dquote ("last" ++ String dquote EmptyString).

(** The literal tail of the pattern, [>; rel="last"]. *)
Definition pattern_tail : string := ">; " ++ rel_last.

(** Python's [needle in hay]. *)
Fixpoint contains (needle hay : string) : bool :=
  if prefix needle hay then true
  else match hay with
       | EmptyString => false
       | String _ rest => contains needle rest
       end.

(** [\d] on Latin-1 text: the ten ASCII digits. *)
Definition is_digit (c : ascii) : bool :=
  let n := nat_of_ascii c in (48 <=? n)%nat && (n <=? 57)%nat.

Fixpoint all_digits (s : string) : bool :=
  match s with
  | EmptyString => true
  | String c rest => is_digit c && all_digits rest
  end.

(** The longest run of digits at the head of the text, and what follows. *)
Fixpoint span_digits (s : string) : string * string :=
  match s with
  | EmptyString => (EmptyString, EmptyString)
  | String c rest =>
      if is_digit c
      then let (d, r) := span_digits rest in (String c d, r)
      else (EmptyString, s)
  end.

Fixpoint drop (n : nat) (s : string) : string :=
  match n, s with
  | O, _ => s
  | S _, EmptyString => EmptyString
  | S m, String _ rest => drop m rest
  end.

(** The pattern [page=(\d+)>; rel="last"] anchored at the head of the
    text; the result is group 1.  The greedy [\d+] takes the whole run of
    digits: giving a digit back would leave a digit where [>] is required. *)
Definition match_here (s : string) : option string :=
  if prefix "page=" s then
    let (d, r) := span_digits (drop 5 s) in
    match d with
    | EmptyString => None
    | String _ _ => if prefix pattern_tail r then Some d else None
    end
  else None.

(** [re.search(r"page=(\d+)>; rel=\"last\"", s)]: the leftmost match. *)
Fixpoint re_search (s : string) : option string :=
  match match_here s with
  | Some d => Some d
  | None =>
      match s with
      | EmptyString => None
      | String _ rest => re_search rest
      end
  end.

Definition digit_value (c : ascii) : Z := Z.of_nat (nat_of_ascii c - 48).

Fixpoint int_from (acc : Z) (s : string) : Z :=
  match s with
  | EmptyString => acc
  | String c rest => int_from (10 * acc + digit_value c)%Z rest
  end.

(** The number a run of digits writes in base ten. *)
Definition decimal_value (s : string) : Z := int_from 0 s.

(** The interpreter's limit on the digits of a decimal text
    ([sys.int_info.default_max_str_digits]); leading zeros count. *)
Definition MAX_STR_DIGITS : nat := 4300.

(** Python's [int] on a run of digits; [None] stands for the [ValueError]
    raised on an empty text and on a text longer than the limit. *)
Definition int (s : string) : option Z :=
  match s with
  | EmptyString => None
  | String _ _ =>
      if (String.length s <=? MAX_STR_DIGITS)%nat
      then Some (decimal_value s) else None
  end.

(** Python's truth value of a string. *)
Definition truthy (s : string) : bool :=
  match s with EmptyString => false | String _ _ => true end.


End Text.

(** ** Effects: remote calls, failures, and the order they happen in *)

Module Effects.

Local Open Scope list_scope.

(** What a failing call raises. *)
Inductive exn : Type :=
| HTTPError (code : Z)
| URLError
| ValueError
| OverflowError
| OtherError.

Inductive outcome (A : Type) : Type :=
| Returned (a : A)
| Raised (e : exn).
Arguments Returned {A} a.
Arguments Raised {A} e.

(** The pieces of the GitHub answers that the script reads. *)
Record user_data : Type := mkUser {
  ud_name : option string;
  ud_avatar_url : option string;
  ud_public_repos : option Z;
  ud_followers : option Z;
  ud_following : option Z
}.

Record repo : Type := mkRepo {
  repo_name : string;
  stargazers_count : option Z
}.

Record search_result : Type := mkSearch { total_count : option Z }.

(** The answer to a commit query: its [Link] header when there is one, and
    the number of items of the decoded body ([None] when reading or
    decoding the body raises). *)
Record response : Type := mkResponse {
  link : option string;
  body_items : option nat
}.

(** Documents are described by the values substituted in the template. *)
Record badge : Type := mkBadge {
  bg_grade : string;
  bg_grade_color : string;
  bg_name : string;
  bg_username : string;
  bg_avatar_clip : bool;
  bg_avatar_image : option string;
  bg_fields : list (string * Z)
}.

(** The things the run does to the outside, in order. *)
Inductive event : Type :=
| GetProfile (user : string)
| ListRepos (user : string)
| SearchPRs (user : string)
| SearchIssues (user : string)
| GetAvatar (url : string)
| GetCommits (user repo : string)
| MakeDirs (dir : string)
| WriteFile (path : string) (doc : badge).

(** The outside: how each call ends. *)
Record world : Type := mkWorld {
  profile : string -> outcome user_data;
  listing : string -> outcome (list repo);
  search_prs : string -> outcome search_result;
  search_issues : string -> outcome search_result;
  avatar : string -> outcome string;
  commit_page : string -> string -> outcome response;
  makedirs : string -> outcome unit;
  write_file : string -> badge -> outcome unit
}.

(** A computation performs events and returns or raises. *)
Definition M (A : Type) : Type := (list event * outcome A)%type.

Definition ret {A} (a : A) : M A := ([], Returned a).

Definition raise {A} (e : exn) : M A := ([], Raised e).

Definition bind {A B} (m : M A) (k : A -> M B) : M B :=
  match m with
  | (t, Returned a) => let (t', r) := k a in (t ++ t', r)
  | (t, Raised e) => (t, Raised e)
  end.

Definition perform {A} (ev : event) (o : outcome A) : M A := ([ev], o).

(** [try: m  except Exception as e: handler e] *)
Definition try_except {A} (m : M A) (handler : exn -> M A) : M A :=
  match m with
  | (t, Returned a) => (t, Returned a)
  | (t, Raised e) => let (t', r) := handler e in (t ++ t', r)
  end.

Definition trace {A} (m : M A) : list event := fst m.
Definition result {A} (m : M A) : outcome A := snd m.

End Effects.

Declare Scope prog_scope.
Delimit Scope prog_scope with prog.
Notation "x <- m ;; k" := (Effects.bind m (fun x => k))
  (at level 61, m at next level, right associativity) : prog_scope.

(** ** Python numbers: integers and the floats this program builds *)

Module PyNum.

Import Effects.
Local Open Scope Z_scope.

(** The nearest double of a non-negative integer, as an integer: 53
    significant bits are kept, a tie goes to the even neighbour. *)
Definition round53_mag (n : Z) : Z :=
  if n <? 2 ^ 53 then n
  else
    let k := Z.log2 n - 52 in
    let q := n / 2 ^ k in
    let r := n mod 2 ^ k in
    let half := 2 ^ (k - 1) in
    if (half <? r) || ((r =? half) && Z.odd q)
    then (q + 1) * 2 ^ k
    else q * 2 ^ k.

Definition round53 (z : Z) : Z := Z.sgn z * round53_mag (Z.abs z).

(** The floats of this program are whole numbers of halves, or infinite:
    [Fin h] is the double of value [h / 2]. *)
Inductive float : Type :=
| Fin (h : Z)
| Inf (negative : bool)
| NaN.

Inductive num : Type :=
| Int (z : Z)
| Float (f : float).

(** An integer converts to a double when its nearest double is finite,
    that is below 2^1024 in magnitude. *)
Definition fits_float (z : Z) : bool := Z.abs (round53 z) <? 2 ^ 1024.

(** The conversion of an integer operand of a float operation. *)
Definition float_of_int (z : Z) : outcome float :=
  if fits_float z then Returned (Fin (2 * round53 z))
  else Raised OverflowError.

(** [z * 0.5]: the integer is converted, the halving is exact. *)
Definition times_half (z : Z) : outcome float :=
  if fits_float z then Returned (Fin (round53 z))
  else Raised OverflowError.

(** A rounded sum that leaves the range of the doubles is infinite. *)
Definition finite (h : Z) : float :=
  if 2 ^ 1025 <=? Z.abs h then Inf (h <? 0) else Fin h.

Definition float_add (a b : float) : float :=
  match a, b with
  | Fin x, Fin y => finite (round53 (x + y))
  | NaN, _ => NaN
  | _, NaN => NaN
  | Inf s, Fin _ => Inf s
  | Fin _, Inf s => Inf s
  | Inf s, Inf t => if Bool.eqb s t then Inf s else NaN
  end.

(** [a + b]; only an integer operand of a float addition is converted. *)
Definition py_add (a b : num) : outcome num :=
  match a, b with
  | Int x, Int y => Returned (Int (x + y))
  | Int x, Float g =>
      match float_of_int x with
      | Returned f => Returned (Float (float_add f g))
      | Raised e => Raised e
      end
  | Float f, Int y =>
      match float_of_int y with
      | Returned g => Returned (Float (float_add f g))
      | Raised e => Raised e
      end
  | Float f, Float g => Returned (Float (float_add f g))
  end.

(** [b < a] for an integer [b]; the comparison of an integer with a float
    is exact. *)
Definition int_lt (b : Z) (a : num) : bool :=
  match a with
  | Int z => b <? z
  | Float (Fin h) => 2 * b <? h
  | Float (Inf negative) => negb negative
  | Float NaN => false
  end.

(** [min(a, b)]: the first argument unless the second is smaller. *)
Definition py_min (a : num) (b : Z) : num :=
  if int_lt b a then Int b else a.

(** [a >= k] for an integer [k]. *)
Definition py_ge (a : num) (k : Z) : bool :=
  match a with
  | Int z => k <=? z
  | Float (Fin h) => 2 * k <=? h
  | Float (Inf negative) => negb negative
  | Float NaN => false
  end.

(** The value of a finite number. *)
Definition value (a : num) : Q :=
  match a with
  | Int z => inject_Z z
  | Float (Fin h) => h # 2
  | Float _ => 0
  end.

(** The float is at most [B] halves (an infinite one being negative). *)
Definition at_most_halves (f : float) (B : Z) : Prop :=
  match f with
  | Fin h => h <= B
  | Inf negative => negative = true
  | NaN => True
  end.

Definition obind {A B} (o : outcome A) (k : A -> outcome B) : outcome B :=
  match o with
  | Returned a => k a
  | Raised e => Raised e
  end.

End PyNum.

Notation "x <-- o ;; k" := (PyNum.obind o (fun x => k))
  (at level 61, o at next level, right associativity) : prog_scope.

(** ** Grading, as the interpreter evaluates it *)

Module GraderRun.

Import Effects PyNum.
Local Open Scope Z_scope.
Local Open Scope prog_scope.

(** The accumulation of the score in [calculate_grade]. *)
Definition score_run (s : stats) : outcome num :=
  let score := Int 0 in
  score <-- py_add score (py_min (Int (repos s * 2)) 50) ;;
  score <-- py_add score (py_min (Int (followers s * 1)) 50) ;;
  score <-- py_add score (py_min (Int (stars s * 3)) 75) ;;
  score <-- py_add score (py_min (Int (prs s * 5)) 75) ;;
  product <-- times_half (commits s) ;;
  score <-- py_add score (py_min (Float product) 50) ;;
  score <-- py_add score (py_min (Int (issues s * 2)) 25) ;;
  Returned score.

(** The chain of thresholds of [calculate_grade]. *)
Definition grade_of_num (score : num) : string :=
  if py_ge score 300 then "S"
  else if py_ge score 200 then "+A"
  else if py_ge score 150 then "A"
  else if py_ge score 100 then "+B"
  else if py_ge score 75 then "B"
  else if py_ge score 50 then "+C"
  else if py_ge score 25 then "C"
  else "D".

(** [calculate_grade]: a label, or the exception of the arithmetic. *)
Definition calculate_grade_run (s : stats) : outcome string :=
  score <-- score_run s ;;
  Returned (grade_of_num score).

(** The sum of the four integer terms, and the term of the issues. *)
Definition int_terms (s : stats) : Z :=
  Z.min (repos s * 2) 50 + Z.min (followers s * 1) 50
  + Z.min (stars s * 3) 75 + Z.min (prs s * 5) 75.

Definition issue_term (s : stats) : Z := Z.min (issues s * 2) 25.

End GraderRun.

(** ** The aggregation: [get_user_stats] *)

Module Aggregator.

Import Effects Text.
Local Open Scope list_scope.
Local Open Scope Z_scope.
Local Open Scope prog_scope.

Definition MAX_REPOS_FOR_COMMITS : nat := 10.

(** [d.get(key, default)] on a key that may be missing. *)
Definition get {A} (field : option A) (default : A) : A :=
  match field with Some v => v | None => default end.

(** [fetch_github_data]: the two handlers report and raise again, any other
    exception passes through untouched. *)
Definition fetch_github_data {A} (ev : event) (o : outcome A) : M A :=
  try_except (perform ev o) (fun e => raise e).

(** [for x in xs: acc = body acc x] *)
Fixpoint for_each {A B} (xs : list A) (acc : B) (body : B -> A -> M B)
  : M B :=
  match xs with
  | [] => ret acc
  | x :: rest => acc' <- body acc x ;; for_each rest acc' body
  end.

(** The block under [with urlopen(...) as response], on the running
    total. *)
Definition count_response (total_commits : Z) (resp : response) : M Z :=
  let link_header := get (link resp) EmptyString in
  if contains rel_last link_header then
    match re_search link_header with
    | Some group1 =>
        match int group1 with
        | Some pages => ret (total_commits + pages)
        | None => raise ValueError
        end
    | None => ret total_commits
    end
  else
    match body_items resp with
    | Some n => ret (total_commits + Z.of_nat n)
    | None => raise OtherError
    end.

(** One turn of the loop over the sampled repositories. *)
Definition lookup_commits (w : world) (user : string)
  (total_commits : Z) (r : repo) : M Z :=
  try_except
    (resp <- perform (GetCommits user (repo_name r))
                     (commit_page w user (repo_name r)) ;;
     count_response total_commits resp)
    (fun _ => ret total_commits).

Section WithLibrary.

(** [base64.b64encode(data).decode("utf-8")] *)
Variable b64encode : string -> string.

Definition fetch_avatar_base64 (w : world) (avatar_url : string)
  : M string :=
  try_except
    (image_data <- perform (GetAvatar avatar_url) (avatar w avatar_url) ;;
     ret (b64encode image_data))
    (fun _ => ret EmptyString).

Definition get_user_stats (w : world) (user : string) : M stats :=
  user_data <- fetch_github_data (GetProfile user) (profile w user) ;;
  repos <- fetch_github_data (ListRepos user) (listing w user) ;;
  let total_stars :=
    fold_left Z.add (map (fun r => get (stargazers_count r) 0) repos) 0 in
  prs_data <- fetch_github_data (SearchPRs user) (search_prs w user) ;;
  issues_data <-
    fetch_github_data (SearchIssues user) (search_issues w user) ;;
  avatar_base64 <-
    (if truthy (get (ud_avatar_url user_data) EmptyString)
     then fetch_avatar_base64 w (get (ud_avatar_url user_data) EmptyString)
     else ret EmptyString) ;;
  total_commits <-
    for_each (firstn MAX_REPOS_FOR_COMMITS repos) 0 (lookup_commits w user) ;;
  ret {| username := user;
         name := (if truthy (get (ud_name user_data) EmptyString)
                  then get (ud_name user_data) EmptyString else user);
         avatar_base64 := avatar_base64;
         repos := get (ud_public_repos user_data) 0;
         followers := get (ud_followers user_data) 0;
         following := get (ud_following user_data) 0;
         stars := total_stars;
         prs := get (total_count prs_data) 0;
         issues := get (total_count issues_data) 0;
         commits := total_commits |}.

End WithLibrary.

End Aggregator.

(** ** Rendering and the entry point *)

Module Renderer.

Import Effects Text Grader.
Local Open Scope list_scope.

Definition grade_colors : list (string * string) :=
  [ ("S", "#FFD700"); ("+A", "#00FF00"); ("A", "#7CFC00");
    ("+B", "#87CEEB"); ("B", "#ADD8E6"); ("+C", "#FFA500");
    ("C", "#FF8C00"); ("D", "#FF6347") ].

Fixpoint dict_get (d : list (string * string)) (key default : string)
  : string :=
  match d with
  | [] => default
  | (k, v) :: rest => if String.eqb k key then v else dict_get rest key default
  end.

(** The document [generate_svg] builds once the grade is known. *)
Definition render_with (grade : string) (s : stats) : badge :=
  {| bg_grade := grade;
     bg_grade_color := dict_get grade_colors grade "#FFFFFF";
     bg_name := name s;
     bg_username := username s;
     bg_avatar_clip := truthy (avatar_base64 s);
     bg_avatar_image :=
       (if truthy (avatar_base64 s) then Some (avatar_base64 s) else None);
     bg_fields :=
       [ ("Repositories", repos s); ("Followers", followers s);
         ("Stars", stars s); ("PRs", prs s);
         ("Commits", commits s); ("Issues", issues s);
         ("Following", following s) ] |}.

(** The document of a record whose grading returns. *)
Definition generate_svg (s : stats) : badge :=
  render_with (calculate_grade s) s.

(** [generate_svg]: its first step is [calculate_grade], whose exception
    it lets through. *)
Definition generate_svg_run (s : stats) : outcome badge :=
  match GraderRun.calculate_grade_run s with
  | Returned grade => Returned (render_with grade s)
  | Raised e => Raised e
  end.

End Renderer.

Module Main.

Import Effects Text Aggregator Renderer.
Local Open Scope list_scope.
Local Open Scope prog_scope.

(** The configuration values read from the process environment. *)
Record environ : Type := mkEnviron {
  GITHUB_USERNAME : option string;
  GITHUB_REPOSITORY_OWNER : option string;
  OUTPUT_PATH : option string
}.

(** Python's [a or b] on values that may be missing. *)
Definition or_else (a b : option string) : option string :=
  match a with
  | Some s => if truthy s then a else b
  | None => b
  end.

(** The head of [main]: the username, from the environment unless an
    argument is given. *)
Definition resolve_username (argv : list string) (env : environ)
  : option string :=
  let username := or_else (GITHUB_USERNAME env) (GITHUB_REPOSITORY_OWNER env) in
  match argv with
  | _ :: arg :: _ => Some arg      (* len(sys.argv) > 1 *)
  | _ => username
  end.

Section WithLibrary.

Variable b64encode : string -> string.

(** [os.path.dirname] *)
Variable dirname : string -> string.

(** The body of the [try] in [main]. *)
Definition generate (w : world) (user output_path : string) : M unit :=
  stats <- get_user_stats b64encode w user ;;
  svg_content <- ([], generate_svg_run stats) ;;
  _ <- perform (MakeDirs (dirname output_path))
               (makedirs w (dirname output_path)) ;;
  _ <- perform (WriteFile output_path svg_content)
               (write_file w output_path svg_content) ;;
  ret tt.

(** [main]: the events of the run and the exit status of the process. *)
Definition main (argv : list string) (env : environ) (w : world)
  : list event * Z :=
  match resolve_username argv env with
  | None => ([], 1%Z)                 (* not username: sys.exit(1) *)
  | Some user =>
      if truthy user then
        let output_path := get (OUTPUT_PATH env) "docs/stats.svg" in
        match generate w user output_path with
        | (t, Returned _) => (t, 0%Z)
        | (t, Raised _) => (t, 1%Z)   (* except Exception: sys.exit(1) *)
        end
      else ([], 1%Z)
  end.

End WithLibrary.

End Main.

(** ** Vocabulary of the specification *)

Module Spec.

Open Scope Q_scope.

(** The scoring formula as the specification writes it. *)
Definition spec_score
  (repoCount followerCount starCount prCount commitCount issueCount : Z) : Q :=
  Qmin (inject_Z repoCount * 2) 50
  + Qmin (inject_Z followerCount * 1) 50
  + Qmin (inject_Z starCount * 3) 75
  + Qmin (inject_Z prCount * 5) 75
  + Qmin (inject_Z commitCount * (1 # 2)) 50
  + Qmin (inject_Z issueCount * 2) 25.

(** The enumeration of the specification, best grade first. *)
Definition spec_grades : list string :=
  [ "S"; "A+"; "A"; "B+"; "B"; "C+"; "C"; "D" ].

(** The labels [calculate_grade] returns, worst grade first. *)
Definition grades_ascending : list string :=
  [ "D"; "C"; "+C"; "B"; "+B"; "A"; "+A"; "S" ].

Fixpoint position (g : string) (l : list string) : option nat :=
  match l with
  | [] => None
  | x :: rest =>
      if String.eqb x g then Some O
      else option_map S (position g rest)
  end.

Definition grade_rank (g : string) : option nat :=
  position g grades_ascending.

(** [g] is not a better grade than [g'], both being grades. *)
Definition grade_le (g g' : string) : Prop :=
  exists r r', grade_rank g = Some r /\ grade_rank g' = Some r' /\ (r <= r')%nat.

(** The six fields that enter the score. *)
Inductive scored_field : Type :=
| RepoCount | FollowerCount | StarCount | PrCount | CommitCount | IssueCount.

Definition scored (f : scored_field) (s : stats) : Z :=
  match f with
  | RepoCount => repos s
  | FollowerCount => followers s
  | StarCount => stars s
  | PrCount => prs s
  | CommitCount => commits s
  | IssueCount => issues s
  end.

(** The record with one scored field replaced. *)
Definition with_field (f : scored_field) (v : Z) (s : stats) : stats :=
  match f with
  | RepoCount =>
      mkStats (username s) (name s) (avatar_base64 s) v (followers s)
              (following s) (stars s) (prs s) (issues s) (commits s)
  | FollowerCount =>
      mkStats (username s) (name s) (avatar_base64 s) (repos s) v
              (following s) (stars s) (prs s) (issues s) (commits s)
  | StarCount =>
      mkStats (username s) (name s) (avatar_base64 s) (repos s) (followers s)
              (following s) v (prs s) (issues s) (commits s)
  | PrCount =>
      mkStats (username s) (name s) (avatar_base64 s) (repos s) (followers s)
              (following s) (stars s) v (issues s) (commits s)
  | CommitCount =>
      mkStats (username s) (name s) (avatar_base64 s) (repos s) (followers s)
              (following s) (stars s) (prs s) (issues s) v
  | IssueCount =>
      mkStats (username s) (name s) (avatar_base64 s) (repos s) (followers s)
              (following s) (stars s) (prs s) v (commits s)
  end.

(** Two records agree on everything that is scored. *)
Definition same_scored (s1 s2 : stats) : Prop :=
  forall f, scored f s1 = scored f s2.

(** *** What a run shows *)

Section Observations.

Import Effects Aggregator.
Local Open Scope Z_scope.

(** What one sampled repository adds to the commit count: the change of
    the running total over its turn of the loop. *)
Definition contributed (w : world) (user : string) (r : repo) : Z :=
  match result (lookup_commits w user 0 r) with
  | Returned total => total
  | Raised _ => 0
  end.

Definition sum_Z (l : list Z) : Z := fold_right Z.add 0 l.

Definition is_commit_lookup (ev : event) : bool :=
  match ev with GetCommits _ _ => true | _ => false end.

(** The commit lookups of a run, in the order they were attempted. *)
Definition commit_lookups (t : list event) : list event :=
  filter is_commit_lookup t.

Definition is_write (ev : event) : bool :=
  match ev with WriteFile _ _ => true | MakeDirs _ => true | _ => false end.

(** The four calls whose failure ends the aggregation. *)
Definition fatal_calls (user : string) : list event :=
  [ GetProfile user; ListRepos user; SearchPRs user; SearchIssues user ].

Definition failed {A} (o : outcome A) (e : exn) : Prop := o = Raised e.

Definition succeeded {A} (o : outcome A) : Prop := exists a, o = Returned a.

(** The avatar step of [get_user_stats]: its events and its value. *)
Definition avatar_step (b64encode : string -> string) (w : world)
  (ud : user_data) : list event * string :=
  let url := get (ud_avatar_url ud) EmptyString in
  if Text.truthy url
  then ([GetAvatar url],
        match avatar w url with
        | Returned image_data => b64encode image_data
        | Raised _ => EmptyString
        end)
  else ([], EmptyString).

End Observations.

End Spec.

(** ** Concrete records and runs used below *)

Module Examples.

Import Effects Text.
Local Open Scope list_scope.
Local Open Scope Z_scope.

(** 50 followers, 25 stars and 15 pull requests: 50 + 75 + 75 = 200. *)
Definition at_200 : stats :=
  mkStats "octocat" "The Octocat" EmptyString 0 50 0 25 15 0 0.

(** Scenario A of the specification: 20 + 20 + 15 + 15 + 5 + 4 = 79. *)
Definition scenario_a : stats :=
  mkStats "octocat" "The Octocat" EmptyString 10 20 0 5 3 2 10.

(** The same counts under another identity and another following count. *)
Definition scenario_a_following : stats :=
  mkStats "hubot" "Hubot" "aGk=" 10 20 4000 5 3 2 10.

(** Scenario C of the specification: every term at its cap. *)
Definition all_capped : stats :=
  mkStats "octocat" "The Octocat" EmptyString
          1000 1000 0 1000 1000 1000 1000.

(** A [Link] header of the shape GitHub sends: the last page is page 7. *)
Definition link_before_7 : string :=
  "<https://api.github.com/repositories/42/commits?author=octocat&per_page=1&page=2>; rel="
  ++ String dquote ("next" ++ String dquote
       ", <https://api.github.com/repositories/42/commits?author=octocat&per_page=1&").

Definition link_last_7 : string :=
  link_before_7 ++ "page=" ++ "7" ++ pattern_tail ++ EmptyString.

(** A header that names a last page without a page number. *)
Definition link_last_unnumbered : string :=
  "<https://api.github.com/repositories/42/commits?cursor=abc>; " ++ rel_last.

(** Twenty-five repositories, named A to Y. *)
Definition repo_named (n : nat) : repo :=
  mkRepo (String (ascii_of_nat (65 + n)) EmptyString) (Some (Z.of_nat n)).

Definition listing_25 : list repo := map repo_named (seq 0 25).

Definition commit_page_example (user repo : string) : outcome response :=
  if String.eqb repo "A" then Returned (mkResponse (Some link_last_7) (Some 1%nat))
  else if String.eqb repo "B" then Returned (mkResponse None (Some 1%nat))
  else if String.eqb repo "C" then Returned (mkResponse None (Some 0%nat))
  else if String.eqb repo "D" then Raised (HTTPError 409)
  else if String.eqb repo "E"
       then Returned (mkResponse (Some link_last_unnumbered) (Some 1%nat))
  else if String.eqb repo "F" then Returned (mkResponse None None)
  else Returned (mkResponse (Some EmptyString) (Some 1%nat)).

Definition octocat_profile : user_data :=
  mkUser (Some "The Octocat")
         (Some "https://avatars.githubusercontent.com/u/583231")
         (Some 8) (Some 20) (Some 9).

(** Every fatal call answers; the avatar and one commit lookup fail. *)
Definition world_ok : world :=
  mkWorld (fun _ => Returned octocat_profile)
          (fun _ => Returned listing_25)
          (fun _ => Returned (mkSearch (Some 3)))
          (fun _ => Returned (mkSearch (Some 2)))
          (fun _ => Raised URLError)
          commit_page_example
          (fun _ => Returned tt)
          (fun _ _ => Returned tt).

(** The repository listing is refused. *)
Definition world_listing_fails : world :=
  mkWorld (fun _ => Returned octocat_profile)
          (fun _ => Raised (HTTPError 403))
          (fun _ => Returned (mkSearch (Some 3)))
          (fun _ => Returned (mkSearch (Some 2)))
          (fun _ => Returned "png")
          commit_page_example
          (fun _ => Returned tt)
          (fun _ _ => Returned tt).

Definition no_environ : Main.environ := Main.mkEnviron None None None.

Definition identity_encoding (data : string) : string := data.

End Examples.

(** ** Further vocabulary: what a run and a badge show *)

Module Derived.

Import Effects Text Aggregator Spec Examples.
Local Open Scope list_scope.
Local Open Scope Z_scope.

(** The count from which the term of a scored field sits at its cap. *)
Definition saturation (f : scored_field) : Z :=
  match f with
  | RepoCount => 25
  | FollowerCount => 50
  | StarCount => 25
  | PrCount => 15
  | CommitCount => 100
  | IssueCount => 13
  end.

Definition is_avatar_fetch (ev : event) : bool :=
  match ev with GetAvatar _ => true | _ => false end.

Definition is_file_write (ev : event) : bool :=
  match ev with WriteFile _ _ => true | _ => false end.

(** The star count of one entry of the listing. *)
Definition repo_stars (r : repo) : Z := get (stargazers_count r) 0.

(** No count sent by the remote side is negative. *)
Definition upstream_nonneg (ud : user_data) (rs : list repo)
  (p i : search_result) : Prop :=
  0 <= get (ud_public_repos ud) 0 /\
  0 <= get (ud_followers ud) 0 /\
  0 <= get (ud_following ud) 0 /\
  (forall r, In r rs -> 0 <= repo_stars r) /\
  0 <= get (total_count p) 0 /\
  0 <= get (total_count i) 0.

(** The path [main] writes to. *)
Definition output_path_of (env : Main.environ) : string :=
  get (Main.OUTPUT_PATH env) "docs/stats.svg".

(** A profile without a name and without an avatar. *)
Definition bare_profile : user_data := mkUser None None (Some 1) None None.

Definition world_bare : world :=
  mkWorld (fun _ => Returned bare_profile)
          (fun _ => Returned [mkRepo "A" None; mkRepo "B" (Some 4)])
          (fun _ => Returned (mkSearch None))
          (fun _ => Returned (mkSearch (Some 2)))
          (fun _ => Returned "png")
          (fun _ _ => Returned (mkResponse None (Some 1%nat)))
          (fun _ => Returned tt)
          (fun _ _ => Returned tt).

(** The output directory cannot be created. *)
Definition world_readonly : world :=
  mkWorld (fun _ => Returned bare_profile)
          (fun _ => Returned [mkRepo "A" None; mkRepo "B" (Some 4)])
          (fun _ => Returned (mkSearch None))
          (fun _ => Returned (mkSearch (Some 2)))
          (fun _ => Returned "png")
          (fun _ _ => Returned (mkResponse None (Some 1%nat)))
          (fun _ => Raised OtherError)
          (fun _ _ => Returned tt).

(** An empty [GITHUB_USERNAME] beside a repository owner. *)
Definition env_owner_only : Main.environ :=
  Main.mkEnviron (Some EmptyString) (Some "octocat") None.

(** A user and an output path set in the environment. *)
Definition env_named : Main.environ :=
  Main.mkEnviron (Some "octocat") (Some "github") (Some "out/card.svg").





(** The least commit count that does not convert to a double. *)
Definition unconvertible : stats :=
  mkStats "octocat" "The Octocat" EmptyString 10 20 0 5 3 2
          (2 ^ 1024 - 2 ^ 970).

(** Every count at the point where its term reaches the cap. *)
Definition just_saturated : stats :=
  mkStats "octocat" "The Octocat" EmptyString 25 50 0 25 15 13 100.

End Derived.

(** * Properties of the grading *)

Module GraderFacts.

Import Grader Spec.
Open Scope Q_scope.

Lemma ge_true (score bound : Q) : ge score bound = true <-> bound <= score.
Proof. unfold ge. apply Qle_bool_iff. Qed.

Lemma ge_false (score bound : Q) : ge score bound = false <-> score < bound.
Proof.
  unfold ge. split; intros H.
  - apply Qnot_le_lt. intros Hle. apply Qle_bool_iff in Hle. congruence.
  - destruct (Qle_bool bound score) eqn:E; [|reflexivity].
    apply Qle_bool_iff in E. exfalso. apply (Qlt_not_le _ _ H E).
Qed.

(** Every threshold test of the chain, turned into an inequality. *)
Ltac thresholds :=
  repeat match goal with
         | |- context [ge ?x ?b] =>
             let E := fresh "E" in
             destruct (ge x b) eqn:E;
             [apply ge_true in E | apply ge_false in E]
         end.

Lemma capped_term_mono (a b : Z) (w c : Q) :
  (a <= b)%Z -> 0 <= w ->
  Qmin (inject_Z a * w) c <= Qmin (inject_Z b * w) c.
Proof.
  intros Hab Hw. apply Q.min_le_compat_r.
  apply Qmult_le_compat_r; [|exact Hw].
  rewrite <- Zle_Qle. exact Hab.
Qed.

Lemma add_capped_mono (x y : Q) (a b : Z) (w c : Q) :
  x <= y -> (a <= b)%Z -> 0 <= w ->
  add_capped x a w c <= add_capped y b w c.
Proof.
  intros Hxy Hab Hw. unfold add_capped.
  apply Qplus_le_compat; [exact Hxy | now apply capped_term_mono].
Qed.

(** The score grows with every scored field. *)
Lemma score_mono (s s' : stats) :
  (forall f, (scored f s <= scored f s')%Z) -> score s <= score s'.
Proof.
  intros H. unfold score.
  pose proof (H RepoCount) as H1. pose proof (H FollowerCount) as H2.
  pose proof (H StarCount) as H3. pose proof (H PrCount) as H4.
  pose proof (H CommitCount) as H5. pose proof (H IssueCount) as H6.
  simpl in H1, H2, H3, H4, H5, H6.
  repeat (apply add_capped_mono; [ | assumption | discriminate ]).
  apply Qle_refl.
Qed.

Lemma score_same (s1 s2 : stats) :
  same_scored s1 s2 -> score s1 = score s2.
Proof.
  intros H. unfold score.
  pose proof (H RepoCount) as H1. pose proof (H FollowerCount) as H2.
  pose proof (H StarCount) as H3. pose proof (H PrCount) as H4.
  pose proof (H CommitCount) as H5. pose proof (H IssueCount) as H6.
  simpl in H1, H2, H3, H4, H5, H6.
  now rewrite H1, H2, H3, H4, H5, H6.
Qed.

Lemma scored_with_field_same (f : scored_field) (v : Z) (s : stats) :
  scored f (with_field f v s) = v.
Proof. destruct f; reflexivity. Qed.

Lemma scored_with_field_other (f g : scored_field) (v : Z) (s : stats) :
  f <> g -> scored g (with_field f v s) = scored g s.
Proof. destruct f, g; intros H; try reflexivity; now elim H. Qed.

Lemma scored_field_eq_dec (f g : scored_field) : {f = g} + {f <> g}.
Proof. decide equality. Qed.

(** The chain of thresholds is a step function that never goes down. *)
Lemma grade_of_score_mono (x y : Q) :
  x <= y -> grade_le (grade_of_score x) (grade_of_score y).
Proof.
  intros Hxy. unfold grade_of_score. thresholds;
    try (exfalso; lra);
    unfold grade_le, grade_rank; simpl;
    do 2 eexists; (split; [reflexivity | split; [reflexivity | lia]]).
Qed.

(** The bands of the chain, with the labels the code returns. *)
Lemma grade_bands (x : Q) :
  (300 <= x -> grade_of_score x = "S") /\
  (200 <= x < 300 -> grade_of_score x = "+A") /\
  (150 <= x < 200 -> grade_of_score x = "A") /\
  (100 <= x < 150 -> grade_of_score x = "+B") /\
  (75 <= x < 100 -> grade_of_score x = "B") /\
  (50 <= x < 75 -> grade_of_score x = "+C") /\
  (25 <= x < 50 -> grade_of_score x = "C") /\
  (x < 25 -> grade_of_score x = "D").
Proof.
  unfold grade_of_score.
  repeat split; intros H; thresholds; try reflexivity; exfalso; lra.
Qed.

(** The boundaries the specification lists, on the chain of the code. *)
Lemma grade_boundaries :
  grade_of_score 199 = "A" /\ grade_of_score 200 = "+A" /\
  grade_of_score 299 = "+A" /\ grade_of_score 300 = "S" /\
  grade_of_score 0 = "D" /\ grade_of_score 24 = "D" /\
  grade_of_score 25 = "C".
Proof. repeat split; reflexivity. Qed.

(** The function returns one of its eight labels. *)
Lemma calculate_grade_label (s : stats) :
  In (calculate_grade s) grades_ascending.
Proof.
  unfold calculate_grade, grade_of_score. thresholds; simpl; tauto.
Qed.

End GraderFacts.

(** * The evaluation of the grading by the interpreter *)

Module RunFacts.

Import Effects PyNum GraderRun Grader Spec GraderFacts.
Local Open Scope Z_scope.

Lemma round53_mag_small (n : Z) : n < 2 ^ 53 -> round53_mag n = n.
Proof.
  intros H. unfold round53_mag.
  destruct (n <? 2 ^ 53) eqn:E; [reflexivity|].
  apply Z.ltb_ge in E. lia.
Qed.

Lemma round53_small (z : Z) : Z.abs z < 2 ^ 53 -> round53 z = z.
Proof.
  intros H. unfold round53. rewrite round53_mag_small by exact H.
  pose proof (Z.abs_sgn z). lia.
Qed.

(** The rounding of a large magnitude stays between the powers of two
    around it. *)
Lemma round53_mag_large (n : Z) :
  2 ^ 53 <= n ->
  let L := Z.log2 n in
  let k := L - 52 in
  let q := n / 2 ^ k in
  53 <= L /\ 2 ^ 52 <= q < 2 ^ 53 /\
  (round53_mag n = q * 2 ^ k \/ round53_mag n = (q + 1) * 2 ^ k) /\
  2 ^ L <= round53_mag n <= 2 ^ (L + 1).
Proof.
  intros H L k q.
  assert (Hpos : 0 < n) by (pose proof (Z.pow_pos_nonneg 2 53); lia).
  destruct (Z.log2_spec n Hpos) as [Hlo Hhi]. fold L in Hlo, Hhi.
  assert (HL : 53 <= L).
  { apply Z.log2_le_pow2; [exact Hpos | exact H]. }
  assert (Hk : 0 <= k) by (unfold k; lia).
  assert (Hpk : 0 < 2 ^ k) by (apply Z.pow_pos_nonneg; lia).
  assert (EL : 2 ^ L = 2 ^ 52 * 2 ^ k).
  { unfold k. rewrite <- Z.pow_add_r by lia. f_equal. lia. }
  assert (EL1 : 2 ^ Z.succ L = 2 ^ 53 * 2 ^ k).
  { unfold k. rewrite <- Z.pow_add_r by lia. f_equal. lia. }
  assert (Hq : 2 ^ 52 <= q < 2 ^ 53).
  { unfold q. split.
    - apply Z.div_le_lower_bound; [exact Hpk | lia].
    - apply Z.div_lt_upper_bound; [exact Hpk | lia]. }
  assert (Hr : round53_mag n = q * 2 ^ k \/ round53_mag n = (q + 1) * 2 ^ k).
  { unfold round53_mag. destruct (n <? 2 ^ 53) eqn:E.
    - apply Z.ltb_lt in E. lia.
    - fold L. fold k. fold q.
      destruct ((2 ^ (k - 1) <? n mod 2 ^ k)
                || ((n mod 2 ^ k =? 2 ^ (k - 1)) && Z.odd q)); [right|left];
        reflexivity. }
  split; [exact HL|]. split; [exact Hq|]. split; [exact Hr|].
  replace (L + 1) with (Z.succ L) by lia. rewrite EL, EL1.
  destruct Hr as [-> | ->]; split; nia.
Qed.

Lemma round53_mag_large_ge (n : Z) : 2 ^ 53 <= n -> 2 ^ 53 <= round53_mag n.
Proof.
  intros H. destruct (round53_mag_large n H) as [HL [_ [_ [Hlo _]]]].
  apply Z.le_trans with (2 ^ Z.log2 n); [|exact Hlo].
  apply Z.pow_le_mono_r; lia.
Qed.

Lemma round53_mag_nonneg (n : Z) : 0 <= n -> 0 <= round53_mag n.
Proof.
  intros H. destruct (Z_lt_le_dec n (2 ^ 53)) as [S|B].
  - now rewrite round53_mag_small.
  - pose proof (round53_mag_large_ge n B). lia.
Qed.

(** A bound that is itself a double bounds the rounded value. *)
Lemma round53_le (z B : Z) :
  z <= B -> - 2 ^ 53 <= B < 2 ^ 53 -> round53 z <= B.
Proof.
  intros Hz HB. destruct (Z_lt_le_dec (Z.abs z) (2 ^ 53)) as [S|Big].
  - now rewrite round53_small.
  - assert (Hneg : z < 0) by lia.
    unfold round53. pose proof (round53_mag_large_ge (Z.abs z) Big).
    rewrite (Z.sgn_neg z Hneg). lia.
Qed.

Lemma round53_ge (z B : Z) :
  B <= z -> - 2 ^ 53 < B <= 2 ^ 53 -> B <= round53 z.
Proof.
  intros Hz HB. destruct (Z_lt_le_dec (Z.abs z) (2 ^ 53)) as [S|Big].
  - now rewrite round53_small.
  - assert (Hpos : 0 < z) by lia.
    unfold round53. pose proof (round53_mag_large_ge (Z.abs z) Big).
    rewrite (Z.sgn_pos z Hpos). lia.
Qed.

Lemma abs_round53 (z : Z) : Z.abs (round53 z) = round53_mag (Z.abs z).
Proof.
  unfold round53.
  pose proof (round53_mag_nonneg (Z.abs z) (Z.abs_nonneg z)) as Hm.
  destruct (Z.lt_trichotomy z 0) as [N|[->|P]].
  - rewrite (Z.sgn_neg z N). lia.
  - reflexivity.
  - rewrite (Z.sgn_pos z P). lia.
Qed.

Lemma round53_mag_unfold (n : Z) :
  2 ^ 53 <= n ->
  round53_mag n =
  let k := Z.log2 n - 52 in
  if (2 ^ (k - 1) <? n mod 2 ^ k)
     || ((n mod 2 ^ k =? 2 ^ (k - 1)) && Z.odd (n / 2 ^ k))
  then (n / 2 ^ k + 1) * 2 ^ k
  else n / 2 ^ k * 2 ^ k.
Proof.
  intros H. unfold round53_mag. destruct (n <? 2 ^ 53) eqn:E.
  - apply Z.ltb_lt in E. lia.
  - reflexivity.
Qed.

(** The integers that convert to a double: those below
    2^1024 - 2^970 in magnitude. *)
Lemma round53_mag_fits (n : Z) :
  0 <= n -> (round53_mag n < 2 ^ 1024 <-> n < 2 ^ 1024 - 2 ^ 970).
Proof.
  intros Hn. destruct (Z_lt_le_dec n (2 ^ 53)) as [S|Big].
  - rewrite round53_mag_small by exact S. lia.
  - assert (Hpos : 0 < n) by lia.
    destruct (Z.log2_spec n Hpos) as [Hlo Hhi].
    destruct (round53_mag_large n Big) as [HL [Hq [_ [Mlo Mhi]]]].
    destruct (Z_le_gt_dec (Z.log2 n) 1022) as [Low|NotLow].
    + assert (2 ^ (Z.log2 n + 1) <= 2 ^ 1023)
        by (apply Z.pow_le_mono_r; lia).
      replace (Z.succ (Z.log2 n)) with (Z.log2 n + 1) in Hhi by lia. lia.
    + destruct (Z_le_gt_dec 1024 (Z.log2 n)) as [High|NotHigh].
      * assert (2 ^ 1024 <= 2 ^ Z.log2 n) by (apply Z.pow_le_mono_r; lia).
        lia.
      * assert (EL : Z.log2 n = 1023) by lia.
        rewrite (round53_mag_unfold n Big). rewrite EL in *.
        change (1023 - 52) with 971 in *. cbv zeta.
        change (971 - 1) with 970.
        pose proof (Z.div_mod n (2 ^ 971) ltac:(lia)) as Hdm.
        pose proof (Z.mod_pos_bound n (2 ^ 971) ltac:(lia)) as Hrb.
        set (q := n / 2 ^ 971) in *. set (r := n mod 2 ^ 971) in *.
        destruct (Z.eq_dec q (2 ^ 53 - 1)) as [Eq|Nq].
        -- assert (Hodd : Z.odd q = true) by (rewrite Eq; reflexivity).
           rewrite Hodd, andb_true_r.
           destruct ((2 ^ 970 <? r) || (r =? 2 ^ 970)) eqn:C.
           ++ apply orb_true_iff in C.
              rewrite Z.ltb_lt, Z.eqb_eq in C. lia.
           ++ apply orb_false_iff in C.
              rewrite Z.ltb_ge, Z.eqb_neq in C. lia.
        -- destruct ((2 ^ 970 <? r) || ((r =? 2 ^ 970) && Z.odd q)); lia.
Qed.

Lemma fits_float_iff (z : Z) :
  fits_float z = true <-> Z.abs z < 2 ^ 1024 - 2 ^ 970.
Proof.
  unfold fits_float. rewrite Z.ltb_lt, abs_round53.
  apply round53_mag_fits, Z.abs_nonneg.
Qed.

Lemma fits_float_false_iff (z : Z) :
  fits_float z = false <-> 2 ^ 1024 - 2 ^ 970 <= Z.abs z.
Proof.
  pose proof (fits_float_iff z) as H. destruct (fits_float z).
  - split; [discriminate|]. intros G.
    assert (Z.abs z < 2 ^ 1024 - 2 ^ 970) by (apply H; reflexivity). lia.
  - split; [|reflexivity]. intros _.
    destruct (Z_lt_le_dec (Z.abs z) (2 ^ 1024 - 2 ^ 970)) as [L|G];
      [apply H in L; discriminate | exact G].
Qed.

(** ** The evaluation of the score *)

Lemma py_min_int (x cap : Z) : py_min (Int x) cap = Int (Z.min x cap).
Proof.
  unfold py_min, int_lt. destruct (cap <? x) eqn:E.
  - apply Z.ltb_lt in E. f_equal. lia.
  - apply Z.ltb_ge in E. f_equal. lia.
Qed.

Lemma score_run_eval (s : stats) :
  score_run s =
  if fits_float (commits s) then
    if 100 <? round53 (commits s)
    then Returned (Int (int_terms s + 50 + issue_term s))
    else
      match float_of_int (int_terms s) with
      | Returned f4 =>
          match float_of_int (issue_term s) with
          | Returned g6 =>
              Returned
                (Float (float_add (float_add f4 (Fin (round53 (commits s))))
                                  g6))
          | Raised e => Raised e
          end
      | Raised e => Raised e
      end
  else Raised OverflowError.
Proof.
  unfold score_run, int_terms, issue_term, times_half.
  rewrite !py_min_int. cbn [py_add obind].
  destruct (fits_float (commits s)); cbn [obind]; [|reflexivity].
  unfold py_min at 1. cbn [int_lt]. change (2 * 50) with 100.
  destruct (100 <? round53 (commits s)).
  - reflexivity.
  - cbn [py_add].
    change (0 + Z.min (repos s * 2) 50) with (Z.min (repos s * 2) 50).
    destruct (float_of_int _) as [f4|e]; cbn [obind]; [|reflexivity].
    cbn [py_add].
    destruct (float_of_int _) as [g6|e]; reflexivity.
Qed.

Local Open Scope Q_scope.

Lemma qmin_int (x w c : Z) :
  Qmin (inject_Z x * inject_Z w) (inject_Z c) == inject_Z (Z.min (x * w) c).
Proof.
  rewrite <- inject_Z_mult.
  destruct (Z.min_spec (x * w) c) as [[H E]|[H E]]; rewrite E.
  - apply Q.min_l. rewrite <- Zle_Qle. lia.
  - apply Q.min_r. rewrite <- Zle_Qle. lia.
Qed.

(** The exact score, with its integer terms gathered. *)
Lemma exact_score_eval (s : stats) :
  score s ==
  inject_Z (int_terms s) + Qmin (inject_Z (commits s) * 0.5) 50
  + inject_Z (issue_term s).
Proof.
  unfold score, add_capped, int_terms, issue_term.
  pose proof (qmin_int (repos s) 2 50) as H1.
  pose proof (qmin_int (followers s) 1 50) as H2.
  pose proof (qmin_int (stars s) 3 75) as H3.
  pose proof (qmin_int (prs s) 5 75) as H4.
  pose proof (qmin_int (issues s) 2 25) as H6.
  change (inject_Z 2) with 2 in *. change (inject_Z 1) with 1 in *.
  change (inject_Z 3) with 3 in *. change (inject_Z 5) with 5 in *.
  change (inject_Z 50) with 50 in *. change (inject_Z 75) with 75 in *.
  change (inject_Z 25) with 25 in *.
  rewrite H1, H2, H3, H4, H6, !inject_Z_plus. ring.
Qed.

Lemma inject_Z_le_100 (c : Z) : (100 <= c)%Z -> 100 <= inject_Z c.
Proof. intros H. change 100 with (inject_Z 100). now rewrite <- Zle_Qle. Qed.

Lemma inject_Z_ge_100 (c : Z) : (c <= 100)%Z -> inject_Z c <= 100.
Proof. intros H. change 100 with (inject_Z 100). now rewrite <- Zle_Qle. Qed.

Lemma commit_term_capped (c : Z) :
  (100 <= c)%Z -> Qmin (inject_Z c * 0.5) 50 == 50.
Proof.
  intros H. apply Q.min_r. apply inject_Z_le_100 in H. lra.
Qed.

Lemma commit_term_half (c : Z) :
  (c <= 100)%Z -> Qmin (inject_Z c * 0.5) 50 == c # 2.
Proof.
  intros H. rewrite Q.min_l.
  - unfold Qeq, Qmult, inject_Z. cbn [Qnum Qden]. lia.
  - apply inject_Z_ge_100 in H. lra.
Qed.

Lemma halves_value (a c b : Z) :
  inject_Z a + (c # 2) + inject_Z b == (2 * a + c + 2 * b) # 2.
Proof. unfold Qeq, Qplus, inject_Z. cbn [Qnum Qden]. lia. Qed.

Lemma py_ge_value (n : num) (k : Z) :
  (exists z, n = Int z) \/ (exists h, n = Float (Fin h)) ->
  py_ge n k = ge (value n) (inject_Z k).
Proof.
  intros [[z ->]|[h ->]]; unfold py_ge, ge, Qle_bool, value, inject_Z;
    cbn [Qnum Qden].
  - now rewrite !Z.mul_1_r.
  - now rewrite Z.mul_1_r, (Z.mul_comm k).
Qed.

Lemma grade_of_num_value (n : num) :
  (exists z, n = Int z) \/ (exists h, n = Float (Fin h)) ->
  grade_of_num n = grade_of_score (value n).
Proof.
  intros H. unfold grade_of_num, grade_of_score.
  rewrite !(py_ge_value n _ H). reflexivity.
Qed.

Lemma grade_of_score_Qeq (x y : Q) :
  x == y -> grade_of_score x = grade_of_score y.
Proof.
  intros H. unfold grade_of_score, ge.
  now rewrite !(Qleb_comp _ _ (Qeq_refl _) _ _ H).
Qed.

Local Open Scope Z_scope.

Lemma int_terms_le (s : stats) : int_terms s <= 250.
Proof. unfold int_terms. lia. Qed.

Lemma issue_term_le (s : stats) : issue_term s <= 25.
Proof. unfold issue_term. lia. Qed.

Lemma terms_nonneg (s : stats) :
  (forall f, 0 <= scored f s) -> 0 <= int_terms s /\ 0 <= issue_term s.
Proof.
  intros H.
  pose proof (H RepoCount) as H1. pose proof (H FollowerCount) as H2.
  pose proof (H StarCount) as H3. pose proof (H PrCount) as H4.
  pose proof (H IssueCount) as H6.
  simpl in H1, H2, H3, H4, H6. unfold int_terms, issue_term. lia.
Qed.

Lemma round53_le_floor (x cap : Z) :
  x <= cap -> cap <= 2 ^ 50 -> round53 x <= Z.max x (- 2 ^ 50).
Proof.
  intros Hx Hcap. destruct (Z_le_gt_dec (- 2 ^ 50) x) as [S|B].
  - rewrite round53_small by lia. lia.
  - apply Z.le_trans with (- 2 ^ 50); [|lia]. apply round53_le; lia.
Qed.

Lemma finite_at_most (h B : Z) :
  h <= B -> B < 2 ^ 1025 -> at_most_halves (finite h) B.
Proof.
  intros Hh HB. unfold finite. destruct (2 ^ 1025 <=? Z.abs h) eqn:E.
  - apply Z.leb_le in E. cbn [at_most_halves]. apply Z.ltb_lt. lia.
  - exact Hh.
Qed.

Lemma float_add_fin (x y : Z) :
  float_add (Fin x) (Fin y) = finite (round53 (x + y)).
Proof. reflexivity. Qed.

Lemma finite_small (h : Z) : Z.abs h < 2 ^ 1025 -> finite h = Fin h.
Proof.
  intros H. unfold finite. destruct (2 ^ 1025 <=? Z.abs h) eqn:E;
    [apply Z.leb_le in E; lia | reflexivity].
Qed.

Lemma float_add_at_most (f : float) (y B1 B2 : Z) :
  at_most_halves f B1 -> y <= B2 -> - 2 ^ 53 <= B1 + B2 < 2 ^ 53 ->
  at_most_halves (float_add f (Fin y)) (B1 + B2).
Proof.
  intros Hf Hy HB. destruct f as [x|neg|]; cbn [float_add at_most_halves] in *.
  - apply finite_at_most; [apply round53_le; lia | lia].
  - exact Hf.
  - exact I.
Qed.

Lemma at_most_grade_D (f : float) (B : Z) :
  at_most_halves f B -> B < 50 -> grade_of_num (Float f) = "D"%string.
Proof.
  intros Hf HB. unfold grade_of_num, py_ge.
  destruct f as [h|neg|]; cbn [at_most_halves] in Hf.
  - repeat match goal with
           | |- context [?k <=? h] =>
               let E := fresh "E" in
               destruct (k <=? h) eqn:E; [apply Z.leb_le in E; lia|]
           end.
    reflexivity.
  - subst neg. reflexivity.
  - reflexivity.
Qed.

(** A sum with a term far below zero: the evaluation and the exact score
    both give the lowest label. *)
Lemma far_below_is_D (s : stats) :
  commits s <= 100 ->
  int_terms s < - 2 ^ 50 \/ commits s < - 2 ^ 50 \/ issue_term s < - 2 ^ 50 ->
  grade_of_num
    (Float (float_add
              (float_add (Fin (2 * round53 (int_terms s)))
                         (Fin (round53 (commits s))))
              (Fin (2 * round53 (issue_term s))))) = "D"%string /\
  grade_of_score
    ((2 * int_terms s + commits s + 2 * issue_term s) # 2) = "D"%string.
Proof.
  intros Hc Hfar.
  pose proof (int_terms_le s) as U4. pose proof (issue_term_le s) as U6.
  pose proof (round53_le_floor (int_terms s) 250 U4 ltac:(lia)) as R4.
  pose proof (round53_le_floor (commits s) 100 Hc ltac:(lia)) as Rc.
  pose proof (round53_le_floor (issue_term s) 25 U6 ltac:(lia)) as R6.
  split.
  - apply at_most_grade_D
      with (B := 2 * Z.max (int_terms s) (- 2 ^ 50)
                 + Z.max (commits s) (- 2 ^ 50)
                 + 2 * Z.max (issue_term s) (- 2 ^ 50)); [|lia].
    apply float_add_at_most; [|lia|lia].
    apply (float_add_at_most (Fin _)); [cbn [at_most_halves]; lia | lia | lia].
  - apply (proj2 (proj2 (proj2 (proj2 (proj2 (proj2 (proj2
             (grade_bands _)))))))).
    unfold Qlt. cbn [Qnum Qden]. lia.
Qed.

Ltac all_far_below :=
  match goal with
  | Hc : (commits ?s <= 100)%Z |- _ =>
      let D := fresh "D" in
      destruct (far_below_is_D s Hc ltac:(lia)) as [D ->]; exact D
  end.

Lemma returned_inj {A} (a b : A) : Returned a = Returned b -> a = b.
Proof. intros H. now inversion H. Qed.

(** Whenever the evaluation returns a label, it is the label of the exact
    score. *)
Lemma run_agrees (s : stats) (g : string) :
  calculate_grade_run s = Returned g -> g = calculate_grade s.
Proof.
  unfold calculate_grade_run. rewrite score_run_eval.
  pose proof (int_terms_le s) as U4. pose proof (issue_term_le s) as U6.
  destruct (fits_float (commits s)) eqn:F; [|discriminate].
  destruct (100 <? round53 (commits s)) eqn:C.
  - apply Z.ltb_lt in C.
    assert (Hc : 100 <= commits s).
    { destruct (Z_le_gt_dec (commits s) 100) as [L|G]; [|lia].
      pose proof (round53_le (commits s) 100 L ltac:(lia)). lia. }
    unfold obind. intros H. apply returned_inj in H. subst g.
    rewrite grade_of_num_value by (left; eexists; reflexivity).
    unfold calculate_grade. apply grade_of_score_Qeq. cbn [value].
    rewrite exact_score_eval, (commit_term_capped _ Hc), !inject_Z_plus.
    reflexivity.
  - apply Z.ltb_ge in C.
    assert (Hc : commits s <= 100).
    { destruct (Z_le_gt_dec (commits s) 100) as [L|G]; [exact L|].
      pose proof (round53_ge (commits s) 101 ltac:(lia) ltac:(lia)). lia. }
    unfold float_of_int.
    destruct (fits_float (int_terms s)); [|discriminate].
    destruct (fits_float (issue_term s)); [|discriminate].
    unfold obind. intros H. apply returned_inj in H. subst g.
    assert (Ex : (score s ==
                  (2 * int_terms s + commits s + 2 * issue_term s) # 2)%Q).
    { rewrite exact_score_eval, (commit_term_half _ Hc). apply halves_value. }
    unfold calculate_grade. rewrite (grade_of_score_Qeq _ _ Ex).
    destruct (Z_le_gt_dec (- 2 ^ 50) (int_terms s)) as [S4|B4];
      [destruct (Z_le_gt_dec (- 2 ^ 50) (commits s)) as [Sc|Bc];
       [destruct (Z_le_gt_dec (- 2 ^ 50) (issue_term s)) as [S6|B6]|]|].
    + rewrite (round53_small (int_terms s)), (round53_small (commits s)),
        (round53_small (issue_term s)) by lia.
      rewrite float_add_fin, (round53_small (2 * int_terms s + commits s)),
        finite_small by lia.
      rewrite float_add_fin,
        (round53_small (2 * int_terms s + commits s + 2 * issue_term s)),
        finite_small by lia.
      rewrite grade_of_num_value by (right; eexists; reflexivity).
      reflexivity.
    + all_far_below.
    + all_far_below.
    + all_far_below.
Qed.

(** A commit count that does not convert makes the function raise,
    whatever the other counts. *)
Lemma run_overflow (s : stats) :
  fits_float (commits s) = false ->
  score_run s = Raised OverflowError /\
  calculate_grade_run s = Raised OverflowError.
Proof.
  intros F. unfold calculate_grade_run. rewrite score_run_eval, F.
  split; reflexivity.
Qed.

(** With no negative count and a commit count that converts, the function
    returns: its score is the exact score and its label the exact label. *)
Lemma run_returns (s : stats) :
  (forall f, 0 <= scored f s) ->
  fits_float (commits s) = true ->
  exists n,
    score_run s = Returned n /\
    (value n == score s)%Q /\
    calculate_grade_run s = Returned (calculate_grade s).
Proof.
  intros Hnn F.
  destruct (terms_nonneg s Hnn) as [L4 L6].
  pose proof (int_terms_le s) as U4. pose proof (issue_term_le s) as U6.
  pose proof (Hnn CommitCount) as Lc. simpl in Lc.
  assert (Hn : exists n,
             score_run s = Returned n /\ (value n == score s)%Q /\
             ((exists z, n = Int z) \/ (exists h, n = Float (Fin h)))).
  { rewrite score_run_eval, F.
    destruct (100 <? round53 (commits s)) eqn:C.
    - apply Z.ltb_lt in C.
      assert (Hc : 100 <= commits s).
      { destruct (Z_le_gt_dec (commits s) 100) as [L|G]; [|lia].
        pose proof (round53_le (commits s) 100 L ltac:(lia)). lia. }
      eexists. split; [reflexivity|]. split; [|left; eexists; reflexivity].
      cbn [value].
      rewrite exact_score_eval, (commit_term_capped _ Hc), !inject_Z_plus.
      reflexivity.
    - apply Z.ltb_ge in C.
      assert (Hc : commits s <= 100).
      { destruct (Z_le_gt_dec (commits s) 100) as [L|G]; [exact L|].
        pose proof (round53_ge (commits s) 101 ltac:(lia) ltac:(lia)). lia. }
      unfold float_of_int.
      rewrite (proj2 (fits_float_iff (int_terms s))) by lia.
      rewrite (proj2 (fits_float_iff (issue_term s))) by lia.
      rewrite (round53_small (int_terms s)), (round53_small (commits s)),
        (round53_small (issue_term s)) by lia.
      rewrite float_add_fin, (round53_small (2 * int_terms s + commits s)),
        finite_small by lia.
      rewrite float_add_fin,
        (round53_small (2 * int_terms s + commits s + 2 * issue_term s)),
        finite_small by lia.
      eexists. split; [reflexivity|]. split; [|right; eexists; reflexivity].
      cbn [value].
      rewrite exact_score_eval, (commit_term_half _ Hc). symmetry.
      apply halves_value. }
  destruct Hn as [n [Hs [Hv Hfin]]].
  exists n. split; [exact Hs|]. split; [exact Hv|].
  unfold calculate_grade_run. rewrite Hs. unfold obind. f_equal.
  rewrite (grade_of_num_value n Hfin). unfold calculate_grade.
  now apply grade_of_score_Qeq.
Qed.

(** On records without a negative count the function returns exactly when
    the commit count converts. *)
Lemma run_returns_iff (s : stats) :
  (forall f, 0 <= scored f s) ->
  (exists g, calculate_grade_run s = Returned g) <->
  commits s < 2 ^ 1024 - 2 ^ 970.
Proof.
  intros Hnn. pose proof (Hnn CommitCount) as Lc. simpl in Lc.
  assert (E : commits s < 2 ^ 1024 - 2 ^ 970 <-> fits_float (commits s) = true).
  { rewrite fits_float_iff, (Z.abs_eq (commits s)) by exact Lc. tauto. }
  rewrite E. split.
  - intros [g Hg]. destruct (fits_float (commits s)) eqn:F; [reflexivity|].
    destruct (run_overflow s F) as [_ R]. congruence.
  - intros F. destruct (run_returns s Hnn F) as [n [_ [_ R]]].
    eexists. exact R.
Qed.


(** A record stays without a negative count when a scored field gets a
    non-negative value. *)
Lemma with_field_nonneg (f : scored_field) (v : Z) (s : stats) :
  (forall g, 0 <= scored g s) -> 0 <= v ->
  forall g, 0 <= scored g (with_field f v s).
Proof.
  intros Hs Hv g. destruct (scored_field_eq_dec f g) as [<-|Hne].
  - now rewrite scored_with_field_same.
  - rewrite scored_with_field_other by exact Hne. apply Hs.
Qed.

End RunFacts.

Module GraderClaims.

Import Effects PyNum GraderRun Grader Spec Derived GraderFacts RunFacts.
Import Examples.
Open Scope Q_scope.

(** C1: the grade comes from the chain of thresholds, 200 to 299 giving
    the grade A+.  At a score of exactly 200 the function returns the text
    [+A], which is not the text [A+] of the claim and of the function's own
    documentation. *)
Theorem calculate_grade_at_200 :
  score at_200 == 200 /\
  calculate_grade at_200 = "+A" /\
  calculate_grade at_200 <> "A+".
Proof.
  split; [reflexivity|]. split; [reflexivity|].
  vm_compute. discriminate.
Qed.

(** C2: the grade is a member of the enumeration S, A+, A, B+, B, C+, C, D.
    The grade of a record scoring 200 is outside of it. *)
Theorem calculate_grade_outside_enumeration :
  ~ In (calculate_grade at_200) spec_grades.
Proof.
  vm_compute. intros H.
  repeat (destruct H as [H|H]; [discriminate H|]). exact H.
Qed.

(** The exact score is the sum of the six capped terms of the
    specification; a repository count of 100 adds exactly 50; no exact
    score exceeds 325 and 325 is reached. *)
Lemma exact_score_is_sum_of_capped_terms :
  (forall s,
     score s ==
     spec_score (repos s) (followers s) (stars s) (prs s) (commits s)
                (issues s)) /\
  (forall s,
     score (with_field RepoCount 100 s) ==
     score (with_field RepoCount 0 s) + 50) /\
  (forall s, score s <= 325) /\
  score all_capped == 325.
Proof.
  split; [|split; [|split]].
  - intros s. unfold score, add_capped, spec_score.
    assert (E : 0.5 == 1 # 2) by reflexivity.
    rewrite E. ring.
  - intros s. unfold score, add_capped. simpl.
    assert (E1 : Qmin (inject_Z 100 * 2) 50 == 50) by reflexivity.
    assert (E0 : Qmin (inject_Z 0 * 2) 50 == 0) by reflexivity.
    rewrite E1, E0. ring.
  - intros s. unfold score, add_capped.
    pose proof (Q.le_min_r (inject_Z (repos s) * 2) 50).
    pose proof (Q.le_min_r (inject_Z (followers s) * 1) 50).
    pose proof (Q.le_min_r (inject_Z (stars s) * 3) 75).
    pose proof (Q.le_min_r (inject_Z (prs s) * 5) 75).
    pose proof (Q.le_min_r (inject_Z (commits s) * 0.5) 50).
    pose proof (Q.le_min_r (inject_Z (issues s) * 2) 25).
    lra.
  - reflexivity.
Qed.

(** C3, as stated: for every record without a negative count the score is
    the sum of the six capped terms.  The record [unconvertible] has no
    negative count and no score: the function raises [OverflowError] on
    its commit count. *)
Lemma score_formula_counterexample :
  (forall f, (0 <= scored f unconvertible)%Z) /\
  score_run unconvertible = Raised OverflowError /\
  ~ (exists n,
       score_run unconvertible = Returned n /\
       value n ==
       spec_score (repos unconvertible) (followers unconvertible)
                  (stars unconvertible) (prs unconvertible)
                  (commits unconvertible) (issues unconvertible)).
Proof.
  assert (R : score_run unconvertible = Raised OverflowError)
    by (vm_compute; reflexivity).
  split; [intros f; destruct f; vm_compute; discriminate|].
  split; [exact R|].
  intros [n [Hn _]]. rewrite R in Hn. discriminate Hn.
Qed.

(** C3, amended: for every record without a negative count whose commit
    count converts to a double (it is below 2^1024 - 2^970) the function
    computes a score, the sum of the six capped terms of the
    specification, at most 325; a repository count of 100 adds exactly 50
    to it; 325 is reached.  From 2^1024 - 2^970 commits on the function
    raises [OverflowError]. *)
Theorem score_is_sum_of_capped_terms_when_converted (s : stats) :
  (forall f, (0 <= scored f s)%Z) ->
  ((commits s < 2 ^ 1024 - 2 ^ 970)%Z ->
   (exists n,
      score_run s = Returned n /\
      value n ==
      spec_score (repos s) (followers s) (stars s) (prs s) (commits s)
                 (issues s) /\
      value n <= 325) /\
   (exists n100 n0,
      score_run (with_field RepoCount 100 s) = Returned n100 /\
      score_run (with_field RepoCount 0 s) = Returned n0 /\
      value n100 == value n0 + 50)) /\
  ((2 ^ 1024 - 2 ^ 970 <= commits s)%Z ->
   score_run s = Raised OverflowError /\
   calculate_grade_run s = Raised OverflowError) /\
  (exists n, score_run all_capped = Returned n /\ value n == 325).
Proof.
  intros Hnn. pose proof (Hnn CommitCount) as Lc. simpl in Lc.
  destruct exact_score_is_sum_of_capped_terms as [Hsum [H100 [Hmax _]]].
  split; [|split].
  - intros Hc.
    assert (F : fits_float (commits s) = true).
    { apply fits_float_iff. rewrite Z.abs_eq by exact Lc. exact Hc. }
    split.
    + destruct (run_returns s Hnn F) as [n [Hn [Hv _]]].
      exists n. split; [exact Hn|].
      split; [now rewrite Hv, Hsum | rewrite Hv; apply Hmax].
    + destruct (run_returns (with_field RepoCount 100 s)
                  (with_field_nonneg RepoCount 100 s Hnn ltac:(lia)) F)
        as [n100 [Hn100 [Hv100 _]]].
      destruct (run_returns (with_field RepoCount 0 s)
                  (with_field_nonneg RepoCount 0 s Hnn ltac:(lia)) F)
        as [n0 [Hn0 [Hv0 _]]].
      exists n100, n0. split; [exact Hn100|]. split; [exact Hn0|].
      rewrite Hv100, Hv0. apply H100.
  - intros Hc. apply run_overflow. apply fits_float_false_iff.
    rewrite Z.abs_eq by exact Lc. exact Hc.
  - eexists. split; [vm_compute; reflexivity | reflexivity].
Qed.

Lemma score_is_sum_of_capped_terms_when_converted_witness :
  exists n,
    score_run scenario_a = Returned n /\ value n == 79 /\ value n <= 325.
Proof.
  destruct (score_is_sum_of_capped_terms_when_converted scenario_a)
    as [Hconv _].
  - intros f. destruct f; vm_compute; discriminate.
  - destruct Hconv as [[n [Hn [Hv Hle]]] _].
    + vm_compute. reflexivity.
    + exists n. split; [exact Hn|]. split; [|exact Hle].
      rewrite Hv. reflexivity.
Defined.

(** C7: two records that agree on the six scored fields get the same
    grade, whatever their following counts and their other fields. *)
Theorem grade_depends_on_scored_fields_only (s1 s2 : stats) :
  repos s1 = repos s2 ->
  followers s1 = followers s2 ->
  stars s1 = stars s2 ->
  prs s1 = prs s2 ->
  commits s1 = commits s2 ->
  issues s1 = issues s2 ->
  calculate_grade s1 = calculate_grade s2.
Proof.
  intros H1 H2 H3 H4 H5 H6. unfold calculate_grade.
  f_equal. apply score_same. intros f. destruct f; assumption.
Qed.

Lemma grade_depends_on_scored_fields_only_witness :
  following scenario_a <> following scenario_a_following /\
  calculate_grade scenario_a = calculate_grade scenario_a_following.
Proof.
  split; [discriminate|].
  apply (grade_depends_on_scored_fields_only scenario_a scenario_a_following);
    reflexivity.
Defined.

(** C10: raising one scored field and leaving the rest alone never gives
    a lower grade in the order D, C, C+, B, B+, A, A+, S (read on the
    labels the function returns): whenever the record and the raised record
    both get a grade, the second is not lower.  For a record without a
    negative count, a grade for the raised record means a grade for the
    record, and the raised record gets a grade whenever the record has
    one, unless the field is the commit count and it is raised to
    2^1024 - 2^970 or more, where the function raises [OverflowError] and
    gives no grade at all. *)
Theorem grade_monotone_in_each_field
  (f : scored_field) (s : stats) (v : Z) :
  (scored f s <= v)%Z ->
  (forall g g',
     calculate_grade_run s = Returned g ->
     calculate_grade_run (with_field f v s) = Returned g' ->
     grade_le g g') /\
  ((forall h, (0 <= scored h s)%Z) ->
   (forall g',
      calculate_grade_run (with_field f v s) = Returned g' ->
      exists g, calculate_grade_run s = Returned g /\ grade_le g g') /\
   (forall g,
      calculate_grade_run s = Returned g ->
      (f = CommitCount -> (v < 2 ^ 1024 - 2 ^ 970)%Z) ->
      exists g',
        calculate_grade_run (with_field f v s) = Returned g' /\
        grade_le g g')).
Proof.
  intros Hv.
  assert (Hle : grade_le (calculate_grade s)
                         (calculate_grade (with_field f v s))).
  { unfold calculate_grade. apply grade_of_score_mono, score_mono.
    intros g. destruct (scored_field_eq_dec f g) as [<-|Hne].
    - now rewrite scored_with_field_same.
    - rewrite scored_with_field_other by exact Hne. apply Z.le_refl. }
  split.
  { intros g g' Hg Hg'.
    rewrite (run_agrees _ _ Hg), (run_agrees _ _ Hg'). exact Hle. }
  intros Hnn.
  assert (Hnn' : forall g, (0 <= scored g (with_field f v s))%Z).
  { apply with_field_nonneg; [exact Hnn|]. pose proof (Hnn f). lia. }
  assert (Hc : (commits s <= commits (with_field f v s))%Z).
  { change (scored CommitCount s <= scored CommitCount (with_field f v s))%Z.
    destruct (scored_field_eq_dec f CommitCount) as [->|Hne].
    - now rewrite scored_with_field_same.
    - rewrite scored_with_field_other by exact Hne. apply Z.le_refl. }
  split.
  - intros g' Hg'.
    assert (T' : (commits (with_field f v s) < 2 ^ 1024 - 2 ^ 970)%Z).
    { apply (run_returns_iff _ Hnn'). now exists g'. }
    destruct (proj2 (run_returns_iff s Hnn) ltac:(lia)) as [g Hg].
    exists g. split; [exact Hg|].
    rewrite (run_agrees _ _ Hg), (run_agrees _ _ Hg'). exact Hle.
  - intros g Hg Hfit.
    assert (T : (commits s < 2 ^ 1024 - 2 ^ 970)%Z).
    { apply (run_returns_iff _ Hnn). now exists g. }
    assert (T' : (commits (with_field f v s) < 2 ^ 1024 - 2 ^ 970)%Z).
    { destruct (scored_field_eq_dec f CommitCount) as [->|Hne].
      - change (scored CommitCount (with_field CommitCount v s)
                < 2 ^ 1024 - 2 ^ 970)%Z.
        rewrite scored_with_field_same. now apply Hfit.
      - change (scored CommitCount (with_field f v s)
                < 2 ^ 1024 - 2 ^ 970)%Z.
        rewrite scored_with_field_other by exact Hne. exact T. }
    destruct (proj2 (run_returns_iff _ Hnn') T') as [g' Hg'].
    exists g'. split; [exact Hg'|].
    rewrite (run_agrees _ _ Hg), (run_agrees _ _ Hg'). exact Hle.
Qed.

Lemma grade_monotone_in_each_field_witness :
  exists g g',
    calculate_grade_run scenario_a = Returned g /\
    calculate_grade_run (with_field StarCount 40 scenario_a) = Returned g' /\
    grade_le g g'.
Proof.
  destruct (grade_monotone_in_each_field StarCount scenario_a 40)
    as [_ Hnonneg].
  - vm_compute. discriminate.
  - destruct Hnonneg as [_ Hup].
    + intros f. destruct f; vm_compute; discriminate.
    + destruct (Hup "B"%string) as [g' [Hg' Hle]].
      * vm_compute. reflexivity.
      * intros E. discriminate E.
      * exists "B"%string, g'. split; [vm_compute; reflexivity|].
        split; [exact Hg' | exact Hle].
Defined.

End GraderClaims.

(** * Properties of the text helpers *)

Module TextFacts.

Import Text.

Lemma prefix_split (a s : string) :
  prefix a s = true -> exists r, s = a ++ r.
Proof.
  revert s. induction a as [|c a IH]; intros s H.
  - exists s. reflexivity.
  - destruct s as [|c' s]; simpl in H; [discriminate|].
    destruct (ascii_dec c c') as [->|_]; [|discriminate].
    destruct (IH s H) as [r ->]. exists r. reflexivity.
Qed.

Lemma prefix_append (a r : string) : prefix a (a ++ r) = true.
Proof.
  induction a as [|c a IH]; simpl; [now destruct r|].
  destruct (ascii_dec c c) as [_|N]; [exact IH | now elim N].
Qed.

Lemma append_assoc (a b c : string) : (a ++ b) ++ c = a ++ (b ++ c).
Proof. induction a as [|x a IH]; simpl; [reflexivity | now rewrite IH]. Qed.

(** Where the needle is written, [in] finds it. *)
Lemma contains_prefix (needle hay : string) :
  prefix needle hay = true -> contains needle hay = true.
Proof. intros H. destruct hay; cbn [contains]; now rewrite H. Qed.

Lemma contains_append (needle a b : string) :
  contains needle (a ++ needle ++ b) = true.
Proof.
  induction a as [|c a IH].
  - cbn [append]. apply contains_prefix, prefix_append.
  - change (String c a ++ needle ++ b) with (String c (a ++ needle ++ b)).
    cbn [contains]. rewrite IH. now destruct (prefix needle _).
Qed.


Lemma span_digits_split (s d r : string) :
  span_digits s = (d, r) -> s = d ++ r /\ all_digits d = true.
Proof.
  revert d r. induction s as [|c s IH]; intros d r H; simpl in H.
  - inversion H. split; reflexivity.
  - destruct (is_digit c) eqn:Ec.
    + destruct (span_digits s) as [d' r'] eqn:Es. inversion H; subst.
      destruct (IH d' r eq_refl) as [-> Hd].
      split; [reflexivity | simpl; now rewrite Ec, Hd].
    + inversion H; subst. split; reflexivity.
Qed.


(** A match at the head of a text spells the pattern out. *)
Lemma match_here_shape (s d : string) :
  match_here s = Some d ->
  exists r, s = "page=" ++ d ++ pattern_tail ++ r /\ all_digits d = true.
Proof.
  unfold match_here. intros H.
  destruct (prefix "page=" s) eqn:Ep; [|discriminate].
  destruct (prefix_split _ _ Ep) as [s5 ->].
  change (drop 5 ("page=" ++ s5)) with s5 in H.
  destruct (span_digits s5) as [d' r'] eqn:Es.
  destruct (span_digits_split _ _ _ Es) as [-> Hd].
  destruct d' as [|x d']; [discriminate|].
  destruct (prefix pattern_tail r') eqn:Et; [|discriminate].
  inversion H; subst.
  destruct (prefix_split _ _ Et) as [r ->].
  exists r. split; [reflexivity | exact Hd].
Qed.






Lemma re_search_None_here (s : string) :
  re_search s = None -> match_here s = None.
Proof.
  destruct s; cbn [re_search]; destruct (match_here _); congruence.
Qed.



Lemma decimal_value_from_nonneg (s : string) :
  forall acc, (0 <= acc)%Z -> (0 <= int_from acc s)%Z.
Proof.
  induction s as [|c s IH]; intros acc Hacc; cbn [int_from]; [exact Hacc|].
  apply IH. unfold digit_value. lia.
Qed.

Lemma decimal_value_nonneg (s : string) : (0 <= decimal_value s)%Z.
Proof. apply decimal_value_from_nonneg. lia. Qed.

(** [int] reads a non-empty run of at most 4300 digits and refuses a
    longer one. *)
Lemma int_within_limit (d : string) :
  d <> EmptyString -> (String.length d <= MAX_STR_DIGITS)%nat ->
  int d = Some (decimal_value d).
Proof.
  intros Hne Hlen. unfold int. destruct d as [|c d]; [now elim Hne|].
  apply Nat.leb_le in Hlen. now rewrite Hlen.
Qed.

Lemma int_beyond_limit (d : string) :
  (MAX_STR_DIGITS < String.length d)%nat -> int d = None.
Proof.
  intros Hlen. unfold int. destruct d as [|c d]; [reflexivity|].
  apply Nat.leb_gt in Hlen. now rewrite Hlen.
Qed.

Lemma int_some_nonneg (d : string) (n : Z) : int d = Some n -> (0 <= n)%Z.
Proof.
  unfold int. destruct d as [|c d]; [discriminate|].
  destruct (_ <=? _)%nat; [|discriminate].
  intros H. inversion H. apply decimal_value_nonneg.
Qed.

Lemma contains_indicator (pre ds suf : string) :
  contains rel_last (pre ++ "page=" ++ ds ++ pattern_tail ++ suf) = true.
Proof.
  replace (pre ++ "page=" ++ ds ++ pattern_tail ++ suf)
    with ((pre ++ "page=" ++ ds ++ ">; ") ++ rel_last ++ suf).
  - apply contains_append.
  - unfold pattern_tail. now rewrite !append_assoc.
Qed.

End TextFacts.

(** * Properties of the aggregation *)

Module AggregatorFacts.

Import Effects Text Aggregator Spec TextFacts.
Local Open Scope list_scope.
Local Open Scope Z_scope.

(** One turn of the loop performs one lookup, never raises, and adds what
    the repository contributes. *)
Lemma lookup_commits_turn (w : world) (user : string) (total : Z) (r : repo) :
  lookup_commits w user total r =
  ([GetCommits user (repo_name r)], Returned (total + contributed w user r)).
Proof.
  unfold contributed, lookup_commits, count_response, perform, try_except,
    bind, result, ret, raise.
  destruct (commit_page w user (repo_name r)) as [resp|e]; simpl.
  - destruct (contains rel_last (get (link resp) EmptyString)).
    + destruct (re_search (get (link resp) EmptyString)) as [group1|];
        [destruct (int group1)|]; simpl; do 2 f_equal; lia.
    + destruct (body_items resp); simpl; do 2 f_equal; lia.
  - do 2 f_equal. lia.
Qed.

Lemma for_each_lookups (w : world) (user : string) (rs : list repo) :
  forall total,
    for_each rs total (lookup_commits w user) =
    (map (fun r => GetCommits user (repo_name r)) rs,
     Returned (total + sum_Z (map (contributed w user) rs))).
Proof.
  induction rs as [|r rs IH]; intros total; simpl.
  - unfold ret. do 2 f_equal. lia.
  - rewrite lookup_commits_turn. unfold bind. rewrite IH. simpl.
    do 2 f_equal. lia.
Qed.

(** What a repository contributes, read off the answer to its lookup. *)
Lemma contributed_raised (w : world) (user : string) (r : repo) (e : exn) :
  commit_page w user (repo_name r) = Raised e -> contributed w user r = 0.
Proof.
  intros H. unfold contributed, lookup_commits, perform, bind, try_except.
  rewrite H. reflexivity.
Qed.

Lemma contributed_returned (w : world) (user : string) (r : repo)
  (resp : response) :
  commit_page w user (repo_name r) = Returned resp ->
  contributed w user r =
  let link_header := get (link resp) EmptyString in
  if contains rel_last link_header then
    match re_search link_header with
    | Some group1 =>
        match int group1 with
        | Some pages => pages
        | None => 0
        end
    | None => 0
    end
  else
    match body_items resp with
    | Some n => Z.of_nat n
    | None => 0
    end.
Proof.
  intros H.
  unfold contributed, lookup_commits, count_response, perform, bind,
    try_except, result, ret, raise.
  rewrite H. simpl.
  destruct (contains rel_last (get (link resp) EmptyString)).
  - destruct (re_search (get (link resp) EmptyString)) as [group1|];
      [destruct (int group1)|]; reflexivity.
  - destruct (body_items resp); reflexivity.
Qed.

Lemma commit_lookups_map (user : string) (rs : list repo) :
  commit_lookups (map (fun r => GetCommits user (repo_name r)) rs) =
  map (fun r => GetCommits user (repo_name r)) rs.
Proof.
  unfold commit_lookups. induction rs as [|r rs IH]; simpl; [reflexivity|].
  now rewrite IH.
Qed.

Section WithLibrary.

Variable b64encode : string -> string.

Lemma fetch_avatar_base64_never_raises (w : world) (url : string) :
  fetch_avatar_base64 b64encode w url =
  ([GetAvatar url],
   Returned match avatar w url with
            | Returned image_data => b64encode image_data
            | Raised _ => EmptyString
            end).
Proof.
  unfold fetch_avatar_base64, perform, bind, try_except, ret.
  destruct (avatar w url); reflexivity.
Qed.

(** The run of the aggregation when the four fatal calls answer. *)
Lemma get_user_stats_completes (w : world) (user : string)
  (ud : user_data) (rs : list repo) (p i : search_result) :
  profile w user = Returned ud ->
  listing w user = Returned rs ->
  search_prs w user = Returned p ->
  search_issues w user = Returned i ->
  get_user_stats b64encode w user =
  (fatal_calls user ++ fst (avatar_step b64encode w ud) ++
     map (fun r => GetCommits user (repo_name r))
         (firstn MAX_REPOS_FOR_COMMITS rs),
   Returned
     {| username := user;
        name := (if truthy (get (ud_name ud) EmptyString)
                 then get (ud_name ud) EmptyString else user);
        avatar_base64 := snd (avatar_step b64encode w ud);
        repos := get (ud_public_repos ud) 0;
        followers := get (ud_followers ud) 0;
        following := get (ud_following ud) 0;
        stars := fold_left Z.add
                   (map (fun r => get (stargazers_count r) 0) rs) 0;
        prs := get (total_count p) 0;
        issues := get (total_count i) 0;
        commits :=
          sum_Z (map (contributed w user)
                     (firstn MAX_REPOS_FOR_COMMITS rs)) |}).
Proof.
  intros Hp Hl Hs Hi.
  unfold get_user_stats, fetch_github_data, perform, try_except, avatar_step.
  rewrite Hp, Hl, Hs, Hi. cbn [bind app].
  destruct (truthy (get (ud_avatar_url ud) EmptyString)).
  - rewrite fetch_avatar_base64_never_raises. cbn [bind].
    rewrite for_each_lookups. unfold ret, bind.
    now rewrite app_nil_r.
  - unfold ret at 1. cbn [bind]. rewrite for_each_lookups.
    unfold ret, bind. now rewrite app_nil_r.
Qed.

(** The run of the aggregation when a fatal call fails: the first failure
    is what the run raises, and nothing is called after it. *)
Lemma get_user_stats_aborts (w : world) (user : string) (e : exn) :
  (failed (profile w user) e \/
   succeeded (profile w user) /\
   (failed (listing w user) e \/
    succeeded (listing w user) /\
    (failed (search_prs w user) e \/
     succeeded (search_prs w user) /\ failed (search_issues w user) e))) ->
  result (get_user_stats b64encode w user) = Raised e /\
  incl (trace (get_user_stats b64encode w user)) (fatal_calls user).
Proof.
  unfold failed, succeeded, get_user_stats, fetch_github_data, perform,
    try_except, raise, fatal_calls, result, trace.
  intros [Hp | [[ud Hp] [Hl | [[rs Hl] [Hs | [[p Hs] Hi]]]]]];
    rewrite ?Hp, ?Hl, ?Hs, ?Hi; cbn [bind app fst snd];
    (split; [reflexivity|]);
    intros ev Hin; simpl in Hin |- *; tauto.
Qed.

(** A run that returns had its four fatal calls answered. *)
Lemma get_user_stats_returned (w : world) (user : string) (st : stats) :
  result (get_user_stats b64encode w user) = Returned st ->
  exists ud rs p i,
    profile w user = Returned ud /\ listing w user = Returned rs /\
    search_prs w user = Returned p /\ search_issues w user = Returned i.
Proof.
  intros H.
  destruct (profile w user) as [ud|e] eqn:Hp.
  2:{ destruct (get_user_stats_aborts w user e) as [R _];
        [left; exact Hp | congruence]. }
  destruct (listing w user) as [rs|e] eqn:Hl.
  2:{ destruct (get_user_stats_aborts w user e) as [R _];
        [right; split; [now exists ud | left; exact Hl] | congruence]. }
  destruct (search_prs w user) as [p|e] eqn:Hs.
  2:{ destruct (get_user_stats_aborts w user e) as [R _];
        [ right; split; [now exists ud|]; right; split; [now exists rs|];
          left; exact Hs
        | congruence ]. }
  destruct (search_issues w user) as [i|e] eqn:Hi.
  2:{ destruct (get_user_stats_aborts w user e) as [R _];
        [ right; split; [now exists ud|]; right; split; [now exists rs|];
          right; split; [now exists p | exact Hi]
        | congruence ]. }
  now exists ud, rs, p, i.
Qed.

(** The commit lookups of a completed run. *)
Lemma commit_lookups_are_first_ten_lemma (w : world) (user : string)
  (ud : user_data) (rs : list repo) (p i : search_result) :
  profile w user = Returned ud ->
  listing w user = Returned rs ->
  search_prs w user = Returned p ->
  search_issues w user = Returned i ->
  commit_lookups (trace (get_user_stats b64encode w user)) =
    map (fun r => GetCommits user (repo_name r)) (firstn 10 rs) /\
  exists st, result (get_user_stats b64encode w user) = Returned st.
Proof.
  intros Hp Hl Hs Hi.
  rewrite (get_user_stats_completes w user ud rs p i Hp Hl Hs Hi).
  unfold trace, result. cbn [fst snd]. split; [|eexists; reflexivity].
  unfold commit_lookups. rewrite !filter_app.
  fold (commit_lookups (map (fun r => GetCommits user (repo_name r))
                            (firstn MAX_REPOS_FOR_COMMITS rs))).
  rewrite commit_lookups_map. unfold avatar_step.
  destruct (truthy (get (ud_avatar_url ud) EmptyString)); reflexivity.
Qed.

End WithLibrary.

End AggregatorFacts.

Module AggregatorClaims.

Import Effects Text Aggregator Spec Derived TextFacts AggregatorFacts.
Import Examples.
Local Open Scope list_scope.
Local Open Scope Z_scope.




(** C9: when the header carries [rel="last"] but the pattern finds no page
    number, the repository contributes 0, whatever the body holds. *)
Theorem unnumbered_last_page_contributes_nothing
  (w : world) (user : string) (r : repo) (resp : response) :
  commit_page w user (repo_name r) = Returned resp ->
  contains rel_last (get (link resp) EmptyString) = true ->
  re_search (get (link resp) EmptyString) = None ->
  contributed w user r = 0.
Proof.
  intros Hc Hin Hno.
  rewrite (contributed_returned _ _ _ _ Hc). cbv zeta.
  now rewrite Hin, Hno.
Qed.

Lemma unnumbered_last_page_contributes_nothing_witness :
  body_items (mkResponse (Some link_last_unnumbered) (Some 1%nat)) = Some 1%nat /\
  contributed world_ok "octocat" (repo_named 4) = 0.
Proof.
  split; [reflexivity|].
  apply (unnumbered_last_page_contributes_nothing world_ok "octocat"
           (repo_named 4) (mkResponse (Some link_last_unnumbered) (Some 1%nat)));
    reflexivity.
Defined.

(** C8: when the aggregation reaches the sampling step, the commit lookups
    it attempts are those of the first 10 repositories of the listing, in
    the order of the listing (10 of them for a listing of 25); the star
    counts play no part, and the repositories after the tenth add nothing
    to the commit count. *)
Theorem commit_lookups_are_first_ten
  (b64encode : string -> string) (w : world) (user : string)
  (ud : user_data) (rs : list repo) (p i : search_result) :
  profile w user = Returned ud ->
  listing w user = Returned rs ->
  search_prs w user = Returned p ->
  search_issues w user = Returned i ->
  commit_lookups (trace (get_user_stats b64encode w user)) =
    map (fun r => GetCommits user (repo_name r)) (firstn 10 rs) /\
  (List.length rs = 25%nat ->
   List.length (commit_lookups (trace (get_user_stats b64encode w user))) = 10%nat) /\
  (exists st,
     result (get_user_stats b64encode w user) = Returned st /\
     commits st = sum_Z (map (contributed w user) (firstn 10 rs))).
Proof.
  intros Hp Hl Hs Hi.
  destruct (commit_lookups_are_first_ten_lemma b64encode w user ud rs p i
              Hp Hl Hs Hi) as [E _].
  split; [exact E | split].
  - intros Hlen. rewrite E, length_map, length_firstn, Hlen. reflexivity.
  - rewrite (get_user_stats_completes b64encode w user ud rs p i Hp Hl Hs Hi).
    eexists. split; reflexivity.
Qed.

Lemma commit_lookups_are_first_ten_witness :
  List.length listing_25 = 25%nat /\
  commit_lookups (trace (get_user_stats identity_encoding world_ok "octocat")) =
    map (fun r => GetCommits "octocat" (repo_name r)) (firstn 10 listing_25).
Proof.
  split; [reflexivity|].
  apply (commit_lookups_are_first_ten identity_encoding world_ok "octocat"
           octocat_profile listing_25 (mkSearch (Some 3)) (mkSearch (Some 2)));
    reflexivity.
Defined.

(** C5: with the four fatal calls answered the aggregation returns a
    record whatever the avatar fetch and the commit lookups do: a failed
    avatar fetch leaves the avatar empty, a failed lookup counts for zero
    and the lookups after it are still made.  The first of the profile
    lookup, the repository listing and the two searches that fails ends the
    aggregation: its exception is what the aggregation raises, and the
    calls made are those up to it and no other. *)
Theorem failure_policy
  (b64encode : string -> string) (w : world) (user : string) :
  (forall ud rs p i,
     profile w user = Returned ud ->
     listing w user = Returned rs ->
     search_prs w user = Returned p ->
     search_issues w user = Returned i ->
     exists st,
       result (get_user_stats b64encode w user) = Returned st /\
       (forall e, avatar w (get (ud_avatar_url ud) EmptyString) = Raised e ->
                  avatar_base64 st = EmptyString) /\
       commits st = sum_Z (map (contributed w user) (firstn 10 rs)) /\
       (forall r e, commit_page w user (repo_name r) = Raised e ->
                    contributed w user r = 0) /\
       commit_lookups (trace (get_user_stats b64encode w user)) =
         map (fun r => GetCommits user (repo_name r)) (firstn 10 rs)) /\
  (forall e,
     failed (profile w user) e ->
     result (get_user_stats b64encode w user) = Raised e /\
     trace (get_user_stats b64encode w user) = [GetProfile user]) /\
  (forall e,
     succeeded (profile w user) -> failed (listing w user) e ->
     result (get_user_stats b64encode w user) = Raised e /\
     trace (get_user_stats b64encode w user)
       = [GetProfile user; ListRepos user]) /\
  (forall e,
     succeeded (profile w user) -> succeeded (listing w user) ->
     failed (search_prs w user) e ->
     result (get_user_stats b64encode w user) = Raised e /\
     trace (get_user_stats b64encode w user)
       = [GetProfile user; ListRepos user; SearchPRs user]) /\
  (forall e,
     succeeded (profile w user) -> succeeded (listing w user) ->
     succeeded (search_prs w user) -> failed (search_issues w user) e ->
     result (get_user_stats b64encode w user) = Raised e /\
     trace (get_user_stats b64encode w user)
       = [GetProfile user; ListRepos user; SearchPRs user;
          SearchIssues user]).
Proof.
  split.
  - intros ud rs p i Hp Hl Hs Hi.
    destruct (commit_lookups_are_first_ten_lemma b64encode w user ud rs p i
                Hp Hl Hs Hi) as [Hlook Hres].
    rewrite (get_user_stats_completes b64encode w user ud rs p i Hp Hl Hs Hi)
      in Hres |- *.
    eexists. split; [reflexivity|]. cbn [avatar_base64 commits].
    split; [|split; [|split]].
    + intros e He. unfold avatar_step.
      destruct (truthy (get (ud_avatar_url ud) EmptyString));
        [rewrite He|]; reflexivity.
    + reflexivity.
    + intros r e. apply contributed_raised.
    + rewrite <- (get_user_stats_completes b64encode w user ud rs p i
                    Hp Hl Hs Hi).
      exact Hlook.
  - unfold failed, succeeded, get_user_stats, fetch_github_data, perform,
      try_except, raise, result, trace.
    split; [|split; [|split]].
    + intros e Hp. rewrite Hp. split; reflexivity.
    + intros e [ud Hp] Hl. rewrite Hp, Hl. split; reflexivity.
    + intros e [ud Hp] [rs Hl] Hs. rewrite Hp, Hl, Hs. split; reflexivity.
    + intros e [ud Hp] [rs Hl] [p Hs] Hi. rewrite Hp, Hl, Hs, Hi.
      split; reflexivity.
Qed.

Lemma failure_policy_witness :
  avatar world_ok "https://avatars.githubusercontent.com/u/583231"
    = Raised URLError /\
  commit_page world_ok "octocat" "D" = Raised (HTTPError 409) /\
  (exists st,
     result (get_user_stats identity_encoding world_ok "octocat") = Returned st /\
     avatar_base64 st = EmptyString /\ commits st = 12) /\
  result (get_user_stats identity_encoding world_listing_fails "octocat")
    = Raised (HTTPError 403) /\
  trace (get_user_stats identity_encoding world_listing_fails "octocat")
    = [GetProfile "octocat"; ListRepos "octocat"].
Proof.
  destruct (failure_policy identity_encoding world_ok "octocat") as [Hok _].
  destruct (failure_policy identity_encoding world_listing_fails "octocat")
    as [_ [_ [Hlisting _]]].
  split; [reflexivity | split; [reflexivity | split]].
  - destruct (Hok octocat_profile listing_25 (mkSearch (Some 3))
                  (mkSearch (Some 2)) eq_refl eq_refl eq_refl eq_refl)
      as [st [Hr [Hav [Hc _]]]].
    exists st. split; [exact Hr | split].
    + apply (Hav URLError). reflexivity.
    + rewrite Hc. reflexivity.
  - apply (Hlisting (HTTPError 403)).
    + exists octocat_profile. reflexivity.
    + reflexivity.
Defined.

End AggregatorClaims.

(** * Properties of the entry point *)

Module MainFacts.

Import Effects Text Aggregator Renderer Main Spec Derived AggregatorFacts.
Local Open Scope list_scope.

Section WithLibrary.

Variable b64encode : string -> string.

(** The aggregation only reads from the network. *)
Lemma get_user_stats_reads_only (w : world) (user : string) (ev : event) :
  In ev (trace (get_user_stats b64encode w user)) -> is_write ev = false.
Proof.
  assert (Hfatal : forall ev', In ev' (fatal_calls user) -> is_write ev' = false).
  { intros ev' [<-|[<-|[<-|[<-|[]]]]]; reflexivity. }
  destruct (profile w user) as [ud|e] eqn:Hp.
  2:{ intros H. apply Hfatal.
      apply (proj2 (get_user_stats_aborts b64encode w user e (or_introl Hp))).
      exact H. }
  destruct (listing w user) as [rs|e] eqn:Hl.
  2:{ intros H. apply Hfatal.
      refine (proj2 (get_user_stats_aborts b64encode w user e _) _ H).
      right. split; [now exists ud | left; exact Hl]. }
  destruct (search_prs w user) as [p|e] eqn:Hs.
  2:{ intros H. apply Hfatal.
      refine (proj2 (get_user_stats_aborts b64encode w user e _) _ H).
      right. split; [now exists ud|]. right. split; [now exists rs|].
      left. exact Hs. }
  destruct (search_issues w user) as [i|e] eqn:Hi.
  2:{ intros H. apply Hfatal.
      refine (proj2 (get_user_stats_aborts b64encode w user e _) _ H).
      right. split; [now exists ud|]. right. split; [now exists rs|].
      right. split; [now exists p | exact Hi]. }
  rewrite (get_user_stats_completes b64encode w user ud rs p i Hp Hl Hs Hi).
  unfold trace. cbn [fst]. rewrite !in_app_iff.
  intros [H|[H|H]].
  - now apply Hfatal.
  - unfold avatar_step in H.
    destruct (truthy (get (ud_avatar_url ud) EmptyString));
      cbn [fst] in H; [destruct H as [<-|[]]; reflexivity | destruct H].
  - apply in_map_iff in H as [r [<- _]]. reflexivity.
Qed.

End WithLibrary.

(** The document that is rendered is the document of the exact grade. *)
Lemma generate_svg_run_returned (s : stats) (doc : badge) :
  generate_svg_run s = Returned doc -> doc = generate_svg s.
Proof.
  unfold generate_svg_run, generate_svg.
  destruct (GraderRun.calculate_grade_run s) as [g|e] eqn:E; [|discriminate].
  intros H. inversion H. now rewrite (RunFacts.run_agrees s g E).
Qed.

Section WithLibraries.

Variable b64encode : string -> string.
Variable dirname : string -> string.

(** The ways a run with an identity can end. *)
Lemma main_run (argv : list string) (env : environ) (w : world)
  (user : string) :
  resolve_username argv env = Some user -> truthy user = true ->
  let t := trace (get_user_stats b64encode w user) in
  let path := output_path_of env in
  main b64encode dirname argv env w =
  match result (get_user_stats b64encode w user) with
  | Raised _ => (t, 1%Z)
  | Returned st =>
      match generate_svg_run st with
      | Raised _ => (t, 1%Z)
      | Returned doc =>
          match makedirs w (dirname path) with
          | Raised _ => (t ++ [MakeDirs (dirname path)], 1%Z)
          | Returned _ =>
              ( t ++ [MakeDirs (dirname path); WriteFile path doc],
                match write_file w path doc with
                | Returned _ => 0%Z
                | Raised _ => 1%Z
                end )
          end
      end
  end.
Proof.
  intros Hu Ht. unfold main, generate, output_path_of, trace, result.
  rewrite Hu, Ht.
  destruct (get_user_stats b64encode w user) as [t [st|e]];
    cbn [bind fst snd]; [|reflexivity].
  destruct (generate_svg_run st) as [doc|e]; cbn [bind fst snd app];
    [|now rewrite app_nil_r].
  unfold perform, ret.
  destruct (makedirs w _) as [[]|e1]; cbn [bind fst snd app];
    [|reflexivity].
  destruct (write_file w _ _) as [[]|e2]; reflexivity.
Qed.

Lemma aggregation_writes_nothing (w : world) (user : string) :
  filter is_file_write (trace (get_user_stats b64encode w user)) = [].
Proof.
  pose proof (get_user_stats_reads_only b64encode w user) as H.
  induction (trace (get_user_stats b64encode w user)) as [|ev t IH];
    [reflexivity|].
  cbn [filter].
  assert (E : is_write ev = false) by (apply H; now left).
  destruct ev; try discriminate E; cbn [is_file_write];
    apply IH; intros ev' Hin; apply H; now right.
Qed.

End WithLibraries.

End MainFacts.

Module MainClaims.

Import Effects Text Aggregator Renderer Main Spec MainFacts Examples.
Local Open Scope list_scope.

(** C6: a run whose aggregation raises touches no file and exits with
    status 1; a document that is written is the rendering of the record the
    aggregation returned, written after the last call of the aggregation. *)
Theorem no_output_without_record
  (b64encode dirname : string -> string)
  (argv : list string) (env : environ) (w : world) :
  (forall user e,
     resolve_username argv env = Some user ->
     result (get_user_stats b64encode w user) = Raised e ->
     snd (main b64encode dirname argv env w) = 1%Z /\
     forall ev, In ev (fst (main b64encode dirname argv env w)) ->
                is_write ev = false) /\
  (forall path doc,
     In (WriteFile path doc) (fst (main b64encode dirname argv env w)) ->
     exists user st,
       resolve_username argv env = Some user /\
       result (get_user_stats b64encode w user) = Returned st /\
       doc = generate_svg st /\
       fst (main b64encode dirname argv env w) =
         trace (get_user_stats b64encode w user)
         ++ [MakeDirs (dirname path); WriteFile path doc]).
Proof.
  split.
  - intros user e Hu Hr.
    pose proof (get_user_stats_reads_only b64encode w user) as Hro.
    destruct (truthy user) eqn:Ht.
    + rewrite (main_run b64encode dirname argv env w user Hu Ht). cbv zeta.
      rewrite Hr. cbn [fst snd]. split; [reflexivity | exact Hro].
    + unfold main. rewrite Hu, Ht. split; [reflexivity | intros ev []].
  - intros path doc.
    destruct (resolve_username argv env) as [user|] eqn:Hu.
    2:{ unfold main. rewrite Hu. intros []. }
    destruct (truthy user) eqn:Ht.
    2:{ unfold main. rewrite Hu, Ht. intros []. }
    rewrite (main_run b64encode dirname argv env w user Hu Ht). cbv zeta.
    pose proof (get_user_stats_reads_only b64encode w user) as Hro.
    destruct (result (get_user_stats b64encode w user)) as [st|e'] eqn:Hr.
    2:{ cbn [fst]. intros H. apply Hro in H. discriminate H. }
    destruct (generate_svg_run st) as [doc'|e'] eqn:Hg.
    2:{ cbn [fst]. intros H. apply Hro in H. discriminate H. }
    apply generate_svg_run_returned in Hg. subst doc'.
    destruct (makedirs w _) as [[]|e1]; cbn [fst]; rewrite in_app_iff.
    + intros [H|[H|[H|[]]]];
        [apply Hro in H; discriminate H | discriminate H |].
      inversion H; subst.
      exists user, st. repeat split; solve [reflexivity | exact Hr].
    + intros [H|[H|[]]]; [apply Hro in H; discriminate H | discriminate H].
Qed.

Lemma no_output_without_record_witness :
  result (get_user_stats identity_encoding world_listing_fails "octocat")
    = Raised (HTTPError 403) /\
  main identity_encoding identity_encoding ["generate_stats.py"; "octocat"]
       no_environ world_listing_fails
    = ([GetProfile "octocat"; ListRepos "octocat"], 1%Z) /\
  snd (main identity_encoding identity_encoding
            ["generate_stats.py"; "octocat"] no_environ world_listing_fails)
    = 1%Z.
Proof.
  split; [reflexivity | split; [reflexivity|]].
  apply (proj1 (no_output_without_record identity_encoding identity_encoding
                  ["generate_stats.py"; "octocat"] no_environ
                  world_listing_fails)
               "octocat" (HTTPError 403) eq_refl eq_refl).
Defined.

End MainClaims.

(** * Further properties of the grading *)

Module GraderExtras.

Import Effects PyNum GraderRun Grader Spec Derived GraderFacts RunFacts.
Import Examples.
Open Scope Q_scope.

(** One threshold test at a time, the decided branch reduced at once. *)
Ltac threshold_chain :=
  repeat match goal with
         | |- context [ge ?x ?b] =>
             let E := fresh "E" in
             destruct (ge x b) eqn:E;
             [apply ge_true in E | apply ge_false in E]; cbv iota
         end.

Lemma inject_Z_le_const (a b : Z) : (a <= b)%Z -> inject_Z a <= inject_Z b.
Proof. intros H. now rewrite <- Zle_Qle. Qed.

Lemma capped_term_nonneg (x : Z) (w c : Q) :
  (0 <= x)%Z -> 0 <= w -> 0 <= c -> 0 <= Qmin (inject_Z x * w) c.
Proof.
  intros Hx Hw Hc. apply Q.min_glb; [|exact Hc].
  apply Qmult_le_0_compat; [|exact Hw].
  change (inject_Z 0 <= inject_Z x). now apply inject_Z_le_const.
Qed.

Lemma capped_term_saturated (x k : Z) (w c : Q) :
  (k <= x)%Z -> c <= inject_Z k * w -> 0 <= w ->
  Qmin (inject_Z x * w) c == c.
Proof.
  intros Hk Hc Hw. apply Q.min_r.
  apply Qle_trans with (inject_Z k * w); [exact Hc|].
  apply Qmult_le_compat_r; [now apply inject_Z_le_const | exact Hw].
Qed.

Lemma capped_term_below (x k : Z) (w c : Q) :
  (x <= k)%Z -> 0 <= w ->
  Qmin (inject_Z x * w) c <= inject_Z k * w.
Proof.
  intros Hk Hw. apply Qle_trans with (inject_Z x * w); [apply Q.le_min_l|].
  apply Qmult_le_compat_r; [now apply inject_Z_le_const | exact Hw].
Qed.

(** Equal scores get the same label. *)
Lemma grade_of_score_compat (x y : Q) :
  x == y -> grade_of_score x = grade_of_score y.
Proof.
  intros H. unfold grade_of_score, ge.
  now rewrite !(Qleb_comp _ _ (Qeq_refl _) _ _ H).
Qed.

(** The top label is returned from 300 points on and only there. *)
Lemma grade_S_iff (s : stats) :
  calculate_grade s = "S" <-> 300 <= score s.
Proof.
  unfold calculate_grade, grade_of_score. generalize (score s). intros x.
  threshold_chain; split; intros; try discriminate; try reflexivity;
    try assumption; exfalso; lra.
Qed.

(** With no negative count the exact score lies between 0 and 325. *)
Lemma exact_score_range (s : stats) :
  (forall f, (0 <= scored f s)%Z) -> 0 <= score s /\ score s <= 325.
Proof.
  intros H.
  pose proof (H RepoCount) as H1. pose proof (H FollowerCount) as H2.
  pose proof (H StarCount) as H3. pose proof (H PrCount) as H4.
  pose proof (H CommitCount) as H5. pose proof (H IssueCount) as H6.
  simpl in H1, H2, H3, H4, H5, H6.
  unfold score, add_capped.
  pose proof (capped_term_nonneg (repos s) 2 50 H1).
  pose proof (capped_term_nonneg (followers s) 1 50 H2).
  pose proof (capped_term_nonneg (stars s) 3 75 H3).
  pose proof (capped_term_nonneg (prs s) 5 75 H4).
  pose proof (capped_term_nonneg (commits s) 0.5 50 H5).
  pose proof (capped_term_nonneg (issues s) 2 25 H6).
  pose proof (Q.le_min_r (inject_Z (repos s) * 2) 50).
  pose proof (Q.le_min_r (inject_Z (followers s) * 1) 50).
  pose proof (Q.le_min_r (inject_Z (stars s) * 3) 75).
  pose proof (Q.le_min_r (inject_Z (prs s) * 5) 75).
  pose proof (Q.le_min_r (inject_Z (commits s) * 0.5) 50).
  pose proof (Q.le_min_r (inject_Z (issues s) * 2) 25).
  split; lra.
Qed.


(** X2: the label tells the band: each of the eight labels is returned on its
    band of scores and nowhere else. *)
Theorem grade_label_iff_band (s : stats) :
  (calculate_grade s = "S" <-> 300 <= score s) /\
  (calculate_grade s = "+A" <-> 200 <= score s /\ score s < 300) /\
  (calculate_grade s = "A" <-> 150 <= score s /\ score s < 200) /\
  (calculate_grade s = "+B" <-> 100 <= score s /\ score s < 150) /\
  (calculate_grade s = "B" <-> 75 <= score s /\ score s < 100) /\
  (calculate_grade s = "+C" <-> 50 <= score s /\ score s < 75) /\
  (calculate_grade s = "C" <-> 25 <= score s /\ score s < 50) /\
  (calculate_grade s = "D" <-> score s < 25).
Proof.
  unfold calculate_grade, grade_of_score. generalize (score s). intros x.
  threshold_chain;
    repeat split; intros; try discriminate; try reflexivity; try lra;
    exfalso; lra.
Qed.

(** Past the point where a term reaches its cap, the count no longer
    matters to the exact score and label. *)
Lemma exact_saturated_field_is_ignored (f : scored_field) (s : stats) (v : Z) :
  (saturation f <= scored f s)%Z -> (saturation f <= v)%Z ->
  score (with_field f v s) == score s /\
  calculate_grade (with_field f v s) = calculate_grade s.
Proof.
  intros Hs Hv.
  assert (E : score (with_field f v s) == score s).
  { destruct f; simpl in Hs, Hv; unfold score, add_capped; simpl.
    - rewrite (capped_term_saturated v 25 2 50),
        (capped_term_saturated (repos s) 25 2 50);
        solve [reflexivity | assumption | discriminate].
    - rewrite (capped_term_saturated v 50 1 50),
        (capped_term_saturated (followers s) 50 1 50);
        solve [reflexivity | assumption | discriminate].
    - rewrite (capped_term_saturated v 25 3 75),
        (capped_term_saturated (stars s) 25 3 75);
        solve [reflexivity | assumption | discriminate].
    - rewrite (capped_term_saturated v 15 5 75),
        (capped_term_saturated (prs s) 15 5 75);
        solve [reflexivity | assumption | discriminate].
    - rewrite (capped_term_saturated v 100 0.5 50),
        (capped_term_saturated (commits s) 100 0.5 50);
        solve [reflexivity | assumption | discriminate].
    - rewrite (capped_term_saturated v 13 2 25),
        (capped_term_saturated (issues s) 13 2 25);
        solve [reflexivity | assumption | discriminate]. }
  split; [exact E|]. unfold calculate_grade. now apply grade_of_score_compat.
Qed.


(** A count below its saturation point, in place of one at or past it,
    gives a strictly lower exact score. *)
Lemma exact_below_saturation_lowers_score
  (f : scored_field) (s : stats) (v : Z) :
  (v < saturation f)%Z -> (saturation f <= scored f s)%Z ->
  score (with_field f v s) < score s.
Proof.
  intros Hv Hs.
  destruct f; simpl in Hs, Hv; unfold score, add_capped; simpl.
  - assert (L : (v <= 24)%Z) by lia.
    pose proof (capped_term_below v 24 2 50 L) as U.
    change (inject_Z 24 * 2) with (24 * 2) in U.
    rewrite (capped_term_saturated (repos s) 25 2 50);
      solve [assumption | discriminate | lra].
  - assert (L : (v <= 49)%Z) by lia.
    pose proof (capped_term_below v 49 1 50 L) as U.
    change (inject_Z 49 * 1) with (49 * 1) in U.
    rewrite (capped_term_saturated (followers s) 50 1 50);
      solve [assumption | discriminate | lra].
  - assert (L : (v <= 24)%Z) by lia.
    pose proof (capped_term_below v 24 3 75 L) as U.
    change (inject_Z 24 * 3) with (24 * 3) in U.
    rewrite (capped_term_saturated (stars s) 25 3 75);
      solve [assumption | discriminate | lra].
  - assert (L : (v <= 14)%Z) by lia.
    pose proof (capped_term_below v 14 5 75 L) as U.
    change (inject_Z 14 * 5) with (14 * 5) in U.
    rewrite (capped_term_saturated (prs s) 15 5 75);
      solve [assumption | discriminate | lra].
  - assert (L : (v <= 99)%Z) by lia.
    pose proof (capped_term_below v 99 0.5 50 L) as U.
    change (inject_Z 99 * 0.5) with (99 * 0.5) in U.
    rewrite (capped_term_saturated (commits s) 100 0.5 50);
      solve [assumption | discriminate | lra].
  - assert (L : (v <= 12)%Z) by lia.
    pose proof (capped_term_below v 12 2 25 L) as U.
    change (inject_Z 12 * 2) with (12 * 2) in U.
    rewrite (capped_term_saturated (issues s) 13 2 25);
      solve [assumption | discriminate | lra].
Qed.


(** X5: the top grade needs five of the six activities: at least 13
    repositories, 25 followers, 17 stars, 10 pull requests and 50 commits.
    Issues alone are never needed. *)
Theorem grade_S_requirements (s : stats) :
  calculate_grade s = "S" ->
  (13 <= repos s)%Z /\ (25 <= followers s)%Z /\ (17 <= stars s)%Z /\
  (10 <= prs s)%Z /\ (50 <= commits s)%Z.
Proof.
  intros HS. apply (proj1 (grade_S_iff s)) in HS.
  unfold score, add_capped in HS.
  pose proof (Q.le_min_r (inject_Z (repos s) * 2) 50) as B1.
  pose proof (Q.le_min_r (inject_Z (followers s) * 1) 50) as B2.
  pose proof (Q.le_min_r (inject_Z (stars s) * 3) 75) as B3.
  pose proof (Q.le_min_r (inject_Z (prs s) * 5) 75) as B4.
  pose proof (Q.le_min_r (inject_Z (commits s) * 0.5) 50) as B5.
  pose proof (Q.le_min_r (inject_Z (issues s) * 2) 25) as B6.
  repeat split.
  - destruct (Z_le_gt_dec 13 (repos s)) as [|G]; [assumption|exfalso].
    assert (L : (repos s <= 12)%Z) by lia.
    pose proof (capped_term_below (repos s) 12 2 50 L) as U.
    change (inject_Z 12 * 2) with (12 * 2) in U. lra.
  - destruct (Z_le_gt_dec 25 (followers s)) as [|G]; [assumption|exfalso].
    assert (L : (followers s <= 24)%Z) by lia.
    pose proof (capped_term_below (followers s) 24 1 50 L) as U.
    change (inject_Z 24 * 1) with (24 * 1) in U. lra.
  - destruct (Z_le_gt_dec 17 (stars s)) as [|G]; [assumption|exfalso].
    assert (L : (stars s <= 16)%Z) by lia.
    pose proof (capped_term_below (stars s) 16 3 75 L) as U.
    change (inject_Z 16 * 3) with (16 * 3) in U. lra.
  - destruct (Z_le_gt_dec 10 (prs s)) as [|G]; [assumption|exfalso].
    assert (L : (prs s <= 9)%Z) by lia.
    pose proof (capped_term_below (prs s) 9 5 75 L) as U.
    change (inject_Z 9 * 5) with (9 * 5) in U. lra.
  - destruct (Z_le_gt_dec 50 (commits s)) as [|G]; [assumption|exfalso].
    assert (L : (commits s <= 49)%Z) by lia.
    pose proof (capped_term_below (commits s) 49 0.5 50 L) as U.
    change (inject_Z 49 * 0.5) with (49 * 0.5) in U. lra.
Qed.

(** With the five other counts at their saturation points and no negative
    issue count the exact label is S. *)
Lemma exact_five_saturated_fields_give_S (s : stats) :
  (forall f, f <> IssueCount -> (saturation f <= scored f s)%Z) ->
  (0 <= issues s)%Z ->
  calculate_grade s = "S".
Proof.
  intros H Hi.
  pose proof (H RepoCount ltac:(discriminate)) as H1.
  pose proof (H FollowerCount ltac:(discriminate)) as H2.
  pose proof (H StarCount ltac:(discriminate)) as H3.
  pose proof (H PrCount ltac:(discriminate)) as H4.
  pose proof (H CommitCount ltac:(discriminate)) as H5.
  simpl in H1, H2, H3, H4, H5.
  apply (proj2 (grade_S_iff s)).
  unfold score, add_capped.
  rewrite (capped_term_saturated (repos s) 25 2 50),
    (capped_term_saturated (followers s) 50 1 50),
    (capped_term_saturated (stars s) 25 3 75),
    (capped_term_saturated (prs s) 15 5 75),
    (capped_term_saturated (commits s) 100 0.5 50);
    try solve [assumption | discriminate].
  pose proof (capped_term_nonneg (issues s) 2 25 Hi).
  lra.
Qed.


Lemma grade_S_requirements_witness :
  (13 <= repos all_capped)%Z /\ (25 <= followers all_capped)%Z /\
  (17 <= stars all_capped)%Z /\ (10 <= prs all_capped)%Z /\
  (50 <= commits all_capped)%Z.
Proof.
  apply (grade_S_requirements all_capped). reflexivity.
Defined.

Lemma converts (z : Z) :
  (0 <= z)%Z -> (z < 2 ^ 1024 - 2 ^ 970)%Z -> fits_float z = true.
Proof.
  intros H0 H. apply fits_float_iff. now rewrite Z.abs_eq.
Qed.

Lemma saturation_nonneg (f : scored_field) : (0 <= saturation f)%Z.
Proof. destruct f; simpl; lia. Qed.

(** X1: for a record with no negative count whose commit count converts
    to a double, the function computes a score between 0 and 325. *)
Theorem score_range (s : stats) :
  (forall f, (0 <= scored f s)%Z) ->
  (commits s < 2 ^ 1024 - 2 ^ 970)%Z ->
  exists n, score_run s = Returned n /\ 0 <= value n /\ value n <= 325.
Proof.
  intros Hnn Hc.
  destruct (run_returns s Hnn (converts _ (Hnn CommitCount) Hc))
    as [n [Hn [Hv _]]].
  exists n. split; [exact Hn|]. rewrite Hv. now apply exact_score_range.
Qed.

Lemma score_range_witness :
  exists n, score_run scenario_a = Returned n /\ 0 <= value n /\ value n <= 325.
Proof.
  apply (score_range scenario_a).
  - intros f. destruct f; vm_compute; discriminate.
  - vm_compute. reflexivity.
Defined.

(** X3: past the point where a term reaches its cap, the count no longer
    matters: for a record with no negative count, replacing a count at or
    past its saturation point by another such value leaves the score and
    the grade the same, as long as both commit counts convert to a
    double. *)
Theorem saturated_field_is_ignored (f : scored_field) (s : stats) (v : Z) :
  (forall g, (0 <= scored g s)%Z) ->
  (saturation f <= scored f s)%Z -> (saturation f <= v)%Z ->
  (commits s < 2 ^ 1024 - 2 ^ 970)%Z ->
  (commits (with_field f v s) < 2 ^ 1024 - 2 ^ 970)%Z ->
  exists n n' g,
    score_run s = Returned n /\
    score_run (with_field f v s) = Returned n' /\
    value n' == value n /\
    calculate_grade_run s = Returned g /\
    calculate_grade_run (with_field f v s) = Returned g.
Proof.
  intros Hnn Hs Hv Hc Hc'.
  assert (Hnn' : forall g, (0 <= scored g (with_field f v s))%Z).
  { apply with_field_nonneg; [exact Hnn|].
    pose proof (saturation_nonneg f). lia. }
  destruct (run_returns s Hnn (converts _ (Hnn CommitCount) Hc))
    as [n [Hn [Hval Hg]]].
  destruct (run_returns _ Hnn' (converts _ (Hnn' CommitCount) Hc'))
    as [n' [Hn' [Hval' Hg']]].
  destruct (exact_saturated_field_is_ignored f s v Hs Hv) as [Es Eg].
  exists n, n', (calculate_grade s).
  split; [exact Hn|]. split; [exact Hn'|].
  split; [now rewrite Hval', Hval|]. split; [exact Hg|].
  now rewrite Hg', Eg.
Qed.

Lemma saturated_field_is_ignored_witness :
  exists g,
    calculate_grade_run just_saturated = Returned g /\
    calculate_grade_run (with_field CommitCount 5000 just_saturated)
    = Returned g.
Proof.
  destruct (saturated_field_is_ignored CommitCount just_saturated 5000)
    as [n [n' [g [_ [_ [_ [Hg Hg']]]]]]].
  - intros f. destruct f; vm_compute; discriminate.
  - vm_compute. discriminate.
  - vm_compute. discriminate.
  - vm_compute. reflexivity.
  - vm_compute. reflexivity.
  - exists g. split; [exact Hg | exact Hg'].
Defined.

(** X4: the saturation points are exact: for a record with no negative
    count whose commit count converts to a double, replacing a count at
    or past its saturation point by a non-negative value below that point
    gives a strictly lower score. *)
Theorem below_saturation_lowers_score
  (f : scored_field) (s : stats) (v : Z) :
  (forall g, (0 <= scored g s)%Z) ->
  (0 <= v)%Z -> (v < saturation f)%Z -> (saturation f <= scored f s)%Z ->
  (commits s < 2 ^ 1024 - 2 ^ 970)%Z ->
  exists n n',
    score_run s = Returned n /\
    score_run (with_field f v s) = Returned n' /\
    value n' < value n.
Proof.
  intros Hnn Hv0 Hv Hs Hc.
  assert (Hnn' : forall g, (0 <= scored g (with_field f v s))%Z)
    by (now apply with_field_nonneg).
  assert (Hc' : (commits (with_field f v s) < 2 ^ 1024 - 2 ^ 970)%Z).
  { change (scored CommitCount (with_field f v s) < 2 ^ 1024 - 2 ^ 970)%Z.
    destruct (scored_field_eq_dec f CommitCount) as [->|Hne].
    - rewrite scored_with_field_same. simpl in Hv. lia.
    - rewrite scored_with_field_other by exact Hne. exact Hc. }
  destruct (run_returns s Hnn (converts _ (Hnn CommitCount) Hc))
    as [n [Hn [Hval _]]].
  destruct (run_returns _ Hnn' (converts _ (Hnn' CommitCount) Hc'))
    as [n' [Hn' [Hval' _]]].
  exists n, n'. split; [exact Hn|]. split; [exact Hn'|].
  rewrite Hval', Hval. now apply exact_below_saturation_lowers_score.
Qed.

Lemma below_saturation_lowers_score_witness :
  exists n n',
    score_run just_saturated = Returned n /\
    score_run (with_field IssueCount 12 just_saturated) = Returned n' /\
    value n' < value n.
Proof.
  apply (below_saturation_lowers_score IssueCount just_saturated 12).
  - intros f. destruct f; vm_compute; discriminate.
  - lia.
  - simpl. lia.
  - simpl. lia.
  - vm_compute. reflexivity.
Defined.

(** X6: issues are not needed for the top grade: when the five other
    counts are at their saturation points, the issue count is not negative
    and the commit count converts to a double, the function returns S. *)
Theorem five_saturated_fields_give_S (s : stats) :
  (forall f, f <> IssueCount -> (saturation f <= scored f s)%Z) ->
  (0 <= issues s)%Z ->
  (commits s < 2 ^ 1024 - 2 ^ 970)%Z ->
  calculate_grade_run s = Returned "S"%string.
Proof.
  intros H Hi Hc.
  assert (Hnn : forall f, (0 <= scored f s)%Z).
  { intros f. destruct (scored_field_eq_dec f IssueCount) as [->|Hne].
    - exact Hi.
    - pose proof (H f Hne). pose proof (saturation_nonneg f). lia. }
  destruct (run_returns s Hnn (converts _ (Hnn CommitCount) Hc))
    as [n [_ [_ Hg]]].
  rewrite Hg. f_equal. now apply exact_five_saturated_fields_give_S.
Qed.

Lemma five_saturated_fields_give_S_witness :
  calculate_grade_run (with_field IssueCount 0 just_saturated)
  = Returned "S"%string.
Proof.
  apply (five_saturated_fields_give_S (with_field IssueCount 0 just_saturated)).
  - intros f Hf. destruct f; simpl; try lia. now elim Hf.
  - simpl. lia.
  - vm_compute. reflexivity.
Defined.

End GraderExtras.

(** * Further properties of the text helpers *)

Module TextExtras.

Import Text TextFacts Examples.
Local Open Scope Z_scope.

(** X7: [needle in hay] holds exactly when the needle is written somewhere in
    the text. *)
Theorem contains_iff_substring (needle hay : string) :
  contains needle hay = true <->
  exists before after, hay = (before ++ needle ++ after)%string.
Proof.
  split.
  - induction hay as [|c hay IH]; cbn [contains].
    + destruct (prefix needle EmptyString) eqn:E; [|discriminate].
      intros _. destruct (prefix_split _ _ E) as [r Hr].
      exists EmptyString, r. exact Hr.
    + destruct (prefix needle (String c hay)) eqn:E.
      * intros _. destruct (prefix_split _ _ E) as [r Hr].
        exists EmptyString, r. exact Hr.
      * intros H. destruct (IH H) as [a [b ->]].
        exists (String c a), b. reflexivity.
  - intros [a [b ->]]. apply contains_append.
Qed.

Lemma match_here_nonempty (s d : string) :
  match_here s = Some d -> d <> EmptyString.
Proof.
  unfold match_here. destruct (prefix "page=" s); [|discriminate].
  destruct (span_digits (drop 5 s)) as [d' r].
  destruct d' as [|x d']; [discriminate|].
  destruct (prefix pattern_tail r); [|discriminate].
  intros H. inversion H. discriminate.
Qed.

(** X8: what the search returns is a page number as the pattern writes
    it: a non-empty run of digits, standing between [page=] and
    [>; rel="last"] in the text, and a text on which the pattern matches
    passes the test for [rel="last"].  [int] turns a run of at most 4300
    digits into the number it writes, which is not negative, and refuses a
    longer one. *)
Theorem re_search_sound (s d : string) :
  re_search s = Some d ->
  (exists before after,
     s = (before ++ "page=" ++ d ++ pattern_tail ++ after)%string) /\
  all_digits d = true /\ d <> EmptyString /\
  contains rel_last s = true /\
  ((String.length d <= MAX_STR_DIGITS)%nat ->
   int d = Some (decimal_value d) /\ 0 <= decimal_value d) /\
  ((MAX_STR_DIGITS < String.length d)%nat -> int d = None).
Proof.
  intros H.
  assert (Hshape : exists before after,
             s = (before ++ "page=" ++ d ++ pattern_tail ++ after)%string /\
             all_digits d = true /\ d <> EmptyString).
  { revert H. induction s as [|c s IH]; cbn [re_search].
    - destruct (match_here EmptyString) as [d'|] eqn:E; [|discriminate].
      intros H. inversion H; subst d'.
      destruct (match_here_shape _ _ E) as [r [Hr Hd]].
      exists EmptyString, r.
      split; [exact Hr | split; [exact Hd | exact (match_here_nonempty _ _ E)]].
    - destruct (match_here (String c s)) as [d'|] eqn:E.
      + intros H. inversion H; subst d'.
        destruct (match_here_shape _ _ E) as [r [Hr Hd]].
        exists EmptyString, r.
        split; [exact Hr | split; [exact Hd | exact (match_here_nonempty _ _ E)]].
      + intros H. destruct (IH H) as [a [b [-> [Hd Hne]]]].
        exists (String c a), b. split; [reflexivity | split; assumption]. }
  destruct Hshape as [a [b [-> [Hd Hne]]]].
  split; [now exists a, b|].
  split; [exact Hd|]. split; [exact Hne|].
  split; [apply contains_indicator|].
  split.
  - intros Hlen. split; [now apply int_within_limit|].
    apply decimal_value_nonneg.
  - apply int_beyond_limit.
Qed.

Lemma re_search_sound_witness :
  all_digits "7" = true /\ contains rel_last link_last_7 = true /\
  int "7" = Some 7.
Proof.
  destruct (re_search_sound link_last_7 "7" eq_refl)
    as [_ [Hd [_ [Hc [Hint _]]]]].
  split; [exact Hd|]. split; [exact Hc|].
  apply Hint. vm_compute. lia.
Defined.

End TextExtras.

(** * Further properties of the aggregation *)

Module AggregatorExtras.

Import Effects Text Aggregator Renderer Spec Derived.
Import TextFacts TextExtras AggregatorFacts Examples.
Local Open Scope list_scope.
Local Open Scope Z_scope.

Lemma fold_left_add_sum (l : list Z) :
  forall a, fold_left Z.add l a = a + sum_Z l.
Proof.
  induction l as [|x l IH]; intros a; simpl; [lia|]. rewrite IH. lia.
Qed.

Lemma sum_Z_nonneg (l : list Z) :
  (forall x, In x l -> 0 <= x) -> 0 <= sum_Z l.
Proof.
  induction l as [|x l IH]; intros H; simpl; [lia|].
  assert (0 <= x) by (apply H; now left).
  assert (0 <= sum_Z l) by (apply IH; intros y Hy; apply H; now right).
  lia.
Qed.

Lemma sum_Z_app (l1 l2 : list Z) : sum_Z (l1 ++ l2) = sum_Z l1 + sum_Z l2.
Proof. induction l1 as [|x l IH]; simpl; [reflexivity | rewrite IH; lia]. Qed.

(** No repository takes commits away. *)
Lemma contributed_nonneg (w : world) (user : string) (r : repo) :
  0 <= contributed w user r.
Proof.
  destruct (commit_page w user (repo_name r)) as [resp|e] eqn:E.
  - rewrite (contributed_returned _ _ _ _ E). cbv zeta.
    destruct (contains rel_last _).
    + destruct (re_search _) as [group1|]; [|lia].
      destruct (int group1) as [pages|] eqn:Epages; [|lia].
      exact (int_some_nonneg _ _ Epages).
    + destruct (body_items resp); lia.
  - rewrite (contributed_raised _ _ _ _ E). lia.
Qed.

Section WithLibrary.

Variable b64encode : string -> string.

(** The record is built from the four answers: the outcome of a returning
    run. *)
Lemma returned_record (w : world) (user : string) (st : stats) :
  result (get_user_stats b64encode w user) = Returned st ->
  exists ud rs p i,
    profile w user = Returned ud /\ listing w user = Returned rs /\
    search_prs w user = Returned p /\ search_issues w user = Returned i /\
    get_user_stats b64encode w user =
    (fatal_calls user ++ fst (avatar_step b64encode w ud) ++
       map (fun r => GetCommits user (repo_name r))
           (firstn MAX_REPOS_FOR_COMMITS rs),
     Returned st) /\
    username st = user /\
    name st = (if truthy (get (ud_name ud) EmptyString)
               then get (ud_name ud) EmptyString else user) /\
    avatar_base64 st = snd (avatar_step b64encode w ud) /\
    repos st = get (ud_public_repos ud) 0 /\
    followers st = get (ud_followers ud) 0 /\
    following st = get (ud_following ud) 0 /\
    stars st = fold_left Z.add (map repo_stars rs) 0 /\
    prs st = get (total_count p) 0 /\
    issues st = get (total_count i) 0 /\
    commits st =
      sum_Z (map (contributed w user) (firstn MAX_REPOS_FOR_COMMITS rs)).
Proof.
  intros H.
  destruct (get_user_stats_returned b64encode w user st H)
    as [ud [rs [p [i [Hp [Hl [Hs Hi]]]]]]].
  exists ud, rs, p, i.
  pose proof (get_user_stats_completes b64encode w user ud rs p i Hp Hl Hs Hi)
    as E.
  rewrite E in H. unfold result in H. cbn [snd] in H.
  injection H as Hst. rewrite <- Hst.
  repeat (split; [first [assumption | reflexivity]|]). reflexivity.
Qed.

(** X9: the display name is the profile's name when it has a non-empty one and
    the username otherwise, so the badge of a non-empty username is never
    nameless; the username of the record is the one asked for. *)
Theorem display_name_never_empty (w : world) (user : string) (st : stats) :
  result (get_user_stats b64encode w user) = Returned st ->
  truthy user = true ->
  truthy (name st) = true /\ username st = user /\
  (forall ud, profile w user = Returned ud ->
              truthy (get (ud_name ud) EmptyString) = false ->
              name st = user).
Proof.
  intros H Hu.
  destruct (returned_record w user st H)
    as [ud [rs [p [i [Hp [_ [_ [_ [_ [Hn [Hname _]]]]]]]]]]].
  split; [|split; [exact Hn|]].
  - rewrite Hname.
    destruct (truthy (get (ud_name ud) EmptyString)) eqn:E; assumption.
  - intros ud' Hp' Hempty. rewrite Hp in Hp'. inversion Hp'; subst ud'.
    rewrite Hname, Hempty. reflexivity.
Qed.

(** X10: the star total runs over the whole listing, not over the ten sampled
    repositories; an entry without a star count adds 0. *)
Theorem stars_sum_whole_listing
  (w : world) (user : string) (st : stats) (rs : list repo) :
  result (get_user_stats b64encode w user) = Returned st ->
  listing w user = Returned rs ->
  stars st = sum_Z (map repo_stars rs) /\
  stars st =
    sum_Z (map repo_stars (firstn MAX_REPOS_FOR_COMMITS rs)) +
    sum_Z (map repo_stars (skipn MAX_REPOS_FOR_COMMITS rs)).
Proof.
  intros H Hl.
  destruct (returned_record w user st H)
    as [ud [rs' [p [i [_ [Hl' [_ [_ [_ [_ [_ [_ [_ [_ [_ [Hst _]]]]]]]]]]]]]]]].
  rewrite Hl in Hl'. inversion Hl'; subst rs'.
  assert (E : stars st = sum_Z (map repo_stars rs)).
  { rewrite Hst, fold_left_add_sum. lia. }
  split; [exact E|].
  rewrite E, <- sum_Z_app, <- map_app, firstn_skipn. reflexivity.
Qed.

Lemma sampled_sum_nonneg (w : world) (user : string) (rs : list repo) :
  0 <= sum_Z (map (contributed w user) rs).
Proof.
  apply sum_Z_nonneg. intros x Hx.
  apply in_map_iff in Hx as [r [<- _]]. apply contributed_nonneg.
Qed.

(** X11: the commit count of a record is never negative, whatever the remote
    side answers. *)
Theorem commits_never_negative (w : world) (user : string) (st : stats) :
  result (get_user_stats b64encode w user) = Returned st ->
  0 <= commits st.
Proof.
  intros H.
  destruct (returned_record w user st H)
    as [ud [rs [p [i [_ [_ [_ [_ [_ [_ [_ [_ [_ [_ [_ [_ [_ [_ Hc]]]]]]]]]]]]]]]]]].
  rewrite Hc. apply sampled_sum_nonneg.
Qed.

(** X12: when no count sent by the remote side is negative, no count of the
    record is: the record is one the grading ranges over. *)
Theorem record_counts_nonneg (w : world) (user : string) (st : stats)
  (ud : user_data) (rs : list repo) (p i : search_result) :
  profile w user = Returned ud ->
  listing w user = Returned rs ->
  search_prs w user = Returned p ->
  search_issues w user = Returned i ->
  upstream_nonneg ud rs p i ->
  result (get_user_stats b64encode w user) = Returned st ->
  (forall f, 0 <= scored f st) /\ 0 <= following st.
Proof.
  intros Hp Hl Hs Hi [N1 [N2 [N3 [N4 [N5 N6]]]]] H.
  pose proof (sampled_sum_nonneg w user (firstn MAX_REPOS_FOR_COMMITS rs))
    as Hc.
  rewrite (get_user_stats_completes b64encode w user ud rs p i Hp Hl Hs Hi)
    in H.
  unfold result in H. cbn [snd] in H. injection H as Hst. subst st.
  assert (Hstars : 0 <= fold_left Z.add
                          (map (fun r => get (stargazers_count r) 0) rs) 0).
  { rewrite fold_left_add_sum. cbn [Z.add]. apply sum_Z_nonneg.
    intros x Hx. apply in_map_iff in Hx as [r [<- Hr]]. now apply N4. }
  split; [|exact N3].
  intros f. destruct f; cbn [scored repos followers stars prs commits issues];
    assumption.
Qed.

(** A run that raises stopped inside the four fatal calls, after the
    first of them that failed. *)
Lemma aborted_trace (w : world) (user : string) (e : exn) :
  result (get_user_stats b64encode w user) = Raised e ->
  exists k, (1 <= k <= 4)%nat /\
    trace (get_user_stats b64encode w user) = firstn k (fatal_calls user) /\
    (k = 1%nat -> failed (profile w user) e) /\
    (k = 2%nat -> failed (listing w user) e) /\
    (k = 3%nat -> failed (search_prs w user) e) /\
    (k = 4%nat -> failed (search_issues w user) e).
Proof.
  unfold failed.
  destruct (profile w user) as [ud|e1] eqn:Hp.
  2:{ unfold get_user_stats, fetch_github_data, perform, try_except, raise,
        result, trace. rewrite Hp. cbn [bind app fst snd]. intros H.
      exists 1%nat.
      repeat split; try lia; intros K; try discriminate K;
      injection H as ->; reflexivity. }
  destruct (listing w user) as [rs|e2] eqn:Hl.
  2:{ unfold get_user_stats, fetch_github_data, perform, try_except, raise,
        result, trace. rewrite Hp, Hl. cbn [bind app fst snd]. intros H.
      exists 2%nat.
      repeat split; try lia; intros K; try discriminate K;
      injection H as ->; reflexivity. }
  destruct (search_prs w user) as [p|e3] eqn:Hs.
  2:{ unfold get_user_stats, fetch_github_data, perform, try_except, raise,
        result, trace. rewrite Hp, Hl, Hs. cbn [bind app fst snd]. intros H.
      exists 3%nat.
      repeat split; try lia; intros K; try discriminate K;
      injection H as ->; reflexivity. }
  destruct (search_issues w user) as [i|e4] eqn:Hi.
  2:{ unfold get_user_stats, fetch_github_data, perform, try_except, raise,
        result, trace. rewrite Hp, Hl, Hs, Hi. cbn [bind app fst snd].
      intros H.
      exists 4%nat.
      repeat split; try lia; intros K; try discriminate K;
      injection H as ->; reflexivity. }
  rewrite (get_user_stats_completes b64encode w user ud rs p i Hp Hl Hs Hi).
  unfold result. cbn [snd]. discriminate.
Qed.

Lemma no_avatar_fetch_among_lookups (user : string) (rs : list repo) :
  filter is_avatar_fetch (map (fun r => GetCommits user (repo_name r)) rs) = [].
Proof. induction rs as [|r rs IH]; simpl; [reflexivity | exact IH]. Qed.

(** X13: the calls are made in one fixed order and the first failure ends them:
    the events of a run that raises are the first [k] of profile, listing,
    pull-request search, issue search, the [k]-th being the call that
    failed. *)
Theorem abort_stops_at_first_failure
  (w : world) (user : string) (e : exn) :
  result (get_user_stats b64encode w user) = Raised e ->
  exists k, (1 <= k <= 4)%nat /\
    trace (get_user_stats b64encode w user) = firstn k (fatal_calls user) /\
    (k = 1%nat -> failed (profile w user) e) /\
    (k = 2%nat -> failed (listing w user) e) /\
    (k = 3%nat -> failed (search_prs w user) e) /\
    (k = 4%nat -> failed (search_issues w user) e).
Proof.
  intros H. destruct (aborted_trace w user e H)
    as [k [Hk [Ht [H1 [H2 [H3 H4]]]]]].
  exists k. repeat split; try lia; assumption.
Qed.

(** X14: a run of the aggregation sends at most 15 requests: the four fatal
    calls, at most one avatar fetch and at most ten commit lookups. *)
Theorem request_budget (w : world) (user : string) :
  (List.length (trace (get_user_stats b64encode w user)) <= 15)%nat.
Proof.
  destruct (result (get_user_stats b64encode w user)) as [st|e] eqn:H.
  - destruct (returned_record w user st H)
      as [ud [rs [p [i [_ [_ [_ [_ [E _]]]]]]]]].
    rewrite E. unfold trace. cbn [fst].
    rewrite !length_app, length_map, length_firstn.
    assert (List.length (fst (avatar_step b64encode w ud)) <= 1)%nat.
    { unfold avatar_step.
      destruct (truthy (get (ud_avatar_url ud) EmptyString)); simpl; lia. }
    unfold MAX_REPOS_FOR_COMMITS, fatal_calls. cbn [List.length].
    pose proof (Nat.le_min_l 10 (List.length rs)). lia.
  - destruct (aborted_trace w user e H) as [k [Hk [Ht _]]].
    rewrite Ht, length_firstn. simpl. lia.
Qed.

(** X15: the avatar is fetched once when the profile gives a non-empty avatar
    address and not at all otherwise; without an address the record has an
    empty avatar and the badge neither the clip path nor the image. *)
Theorem avatar_fetched_only_with_address
  (w : world) (user : string) (st : stats) (ud : user_data) :
  profile w user = Returned ud ->
  result (get_user_stats b64encode w user) = Returned st ->
  filter is_avatar_fetch (trace (get_user_stats b64encode w user)) =
    (if truthy (get (ud_avatar_url ud) EmptyString)
     then [GetAvatar (get (ud_avatar_url ud) EmptyString)] else []) /\
  (truthy (get (ud_avatar_url ud) EmptyString) = false ->
   avatar_base64 st = EmptyString /\
   bg_avatar_clip (generate_svg st) = false /\
   bg_avatar_image (generate_svg st) = None).
Proof.
  intros Hp H.
  destruct (returned_record w user st H)
    as [ud' [rs [p [i [Hp' [_ [_ [_ [E [_ [_ [Hav _]]]]]]]]]]]].
  rewrite Hp in Hp'. inversion Hp'; subst ud'.
  split.
  - rewrite E. unfold trace. cbn [fst].
    rewrite !filter_app, no_avatar_fetch_among_lookups, app_nil_r.
    unfold avatar_step.
    destruct (truthy (get (ud_avatar_url ud) EmptyString)); reflexivity.
  - intros Hno. unfold avatar_step in Hav. rewrite Hno in Hav. cbn [snd] in Hav.
    unfold generate_svg, render_with. cbn [bg_avatar_clip bg_avatar_image].
    rewrite Hav. repeat split; reflexivity.
Qed.

End WithLibrary.

Lemma display_name_never_empty_witness :
  exists st,
    result (get_user_stats identity_encoding world_bare "octocat") = Returned st /\
    name st = "octocat"%string.
Proof.
  eexists. split; [reflexivity|].
  destruct (display_name_never_empty identity_encoding world_bare "octocat"
              _ eq_refl eq_refl) as [_ [_ Hn]].
  apply (Hn bare_profile); reflexivity.
Defined.

Lemma stars_sum_whole_listing_witness :
  exists st,
    result (get_user_stats identity_encoding world_ok "octocat") = Returned st /\
    stars st = 300.
Proof.
  eexists. split; [reflexivity|].
  destruct (stars_sum_whole_listing identity_encoding world_ok "octocat"
              _ listing_25 eq_refl eq_refl) as [Hs _].
  rewrite Hs. reflexivity.
Defined.

Lemma commits_never_negative_witness :
  exists st,
    result (get_user_stats identity_encoding world_ok "octocat") = Returned st /\
    0 <= commits st.
Proof.
  eexists. split; [reflexivity|].
  apply (commits_never_negative identity_encoding world_ok "octocat" _ eq_refl).
Defined.

Lemma record_counts_nonneg_witness :
  exists st,
    result (get_user_stats identity_encoding world_bare "octocat") = Returned st /\
    0 <= following st.
Proof.
  eexists. split; [reflexivity|].
  refine (proj2 (record_counts_nonneg identity_encoding world_bare "octocat" _
                   bare_profile [mkRepo "A" None; mkRepo "B" (Some 4)]
                   (mkSearch None) (mkSearch (Some 2))
                   eq_refl eq_refl eq_refl eq_refl _ eq_refl)).
  unfold upstream_nonneg. simpl.
  repeat split; try lia.
  intros r [<-|[<-|[]]]; unfold repo_stars; simpl; lia.
Defined.

Lemma abort_stops_at_first_failure_witness :
  trace (get_user_stats identity_encoding world_listing_fails "octocat")
  = [GetProfile "octocat"; ListRepos "octocat"] /\
  exists k, (1 <= k <= 4)%nat /\
    trace (get_user_stats identity_encoding world_listing_fails "octocat")
    = firstn k (fatal_calls "octocat").
Proof.
  split; [reflexivity|].
  destruct (abort_stops_at_first_failure identity_encoding world_listing_fails
              "octocat" (HTTPError 403) eq_refl) as [k [Hk [Ht _]]].
  exists k. split; [exact Hk | exact Ht].
Defined.

Lemma avatar_fetched_only_with_address_witness :
  exists st,
    result (get_user_stats identity_encoding world_bare "octocat") = Returned st /\
    filter is_avatar_fetch
      (trace (get_user_stats identity_encoding world_bare "octocat")) = [] /\
    bg_avatar_image (generate_svg st) = None.
Proof.
  eexists. split; [reflexivity|].
  destruct (avatar_fetched_only_with_address identity_encoding world_bare
              "octocat" _ bare_profile eq_refl eq_refl) as [Hf Hb].
  split; [exact Hf|]. apply (Hb eq_refl).
Defined.

End AggregatorExtras.

(** * Further properties of the rendering *)

Module RendererExtras.

Import Effects Text Grader Renderer Spec GraderFacts.
Local Open Scope list_scope.

(** X16: every grade the grading can return has its own entry in the palette:
    the fallback colour is never used, the badge shows the grade that
    [calculate_grade] gives, and two badges have the same colour exactly
    when they have the same grade. *)
Theorem every_grade_has_its_colour (s1 s2 : stats) :
  In (calculate_grade s1, bg_grade_color (generate_svg s1)) grade_colors /\
  bg_grade_color (generate_svg s1) <> "#FFFFFF" /\
  bg_grade (generate_svg s1) = calculate_grade s1 /\
  (bg_grade_color (generate_svg s1) = bg_grade_color (generate_svg s2) <->
   calculate_grade s1 = calculate_grade s2).
Proof.
  unfold generate_svg, render_with. cbn [bg_grade_color bg_grade].
  pose proof (calculate_grade_label s1) as L1.
  pose proof (calculate_grade_label s2) as L2.
  unfold grades_ascending in L1, L2.
  repeat (destruct L1 as [L1|L1]; [|]); try contradiction;
    rewrite <- L1;
    (split; [vm_compute; tauto|]);
    (split; [vm_compute; discriminate|]);
    (split; [reflexivity|]);
    repeat (destruct L2 as [L2|L2]; [|]); try contradiction;
    rewrite <- L2; vm_compute; split; intros E;
    solve [reflexivity | discriminate E].
Qed.

End RendererExtras.

(** * Further properties of the entry point *)

Module MainExtras.

Import Effects Text Aggregator Renderer Main Spec Derived.
Import AggregatorFacts MainFacts Examples.
Local Open Scope list_scope.

Section WithLibrary.

Variable b64encode : string -> string.
Variable dirname : string -> string.

(** Every run with an identity begins by asking for its profile. *)
Lemma aggregation_starts_with_profile (w : world) (user : string) :
  exists t, trace (get_user_stats b64encode w user) = GetProfile user :: t.
Proof.
  unfold get_user_stats, fetch_github_data, perform, try_except, trace.
  destruct (profile w user) as [ud|e]; cbn [bind fst].
  - match goal with
    | |- context [let (t', r) := ?m in _] => destruct m as [t' r]
    end.
    eexists. reflexivity.
  - eexists. reflexivity.
Qed.

(** X17: whose statistics are fetched: a command-line argument goes before the
    environment, [GITHUB_USERNAME] before [GITHUB_REPOSITORY_OWNER], and an
    empty [GITHUB_USERNAME] counts as missing.  The first request of the
    run is the profile of that identity. *)
Theorem identity_priority (env : environ) (w : world) :
  (forall prog arg rest,
     truthy arg = true ->
     exists t, fst (main b64encode dirname (prog :: arg :: rest) env w)
               = GetProfile arg :: t) /\
  (forall argv u,
     (List.length argv <= 1)%nat ->
     GITHUB_USERNAME env = Some u -> truthy u = true ->
     exists t, fst (main b64encode dirname argv env w) = GetProfile u :: t) /\
  (forall argv o,
     (List.length argv <= 1)%nat ->
     or_else (GITHUB_USERNAME env) None = None ->
     GITHUB_REPOSITORY_OWNER env = Some o -> truthy o = true ->
     exists t, fst (main b64encode dirname argv env w) = GetProfile o :: t).
Proof.
  assert (Hstart : forall argv user,
             resolve_username argv env = Some user -> truthy user = true ->
             exists t, fst (main b64encode dirname argv env w)
                       = GetProfile user :: t).
  { intros argv user Hu Ht.
    rewrite (main_run b64encode dirname argv env w user Hu Ht).
    destruct (aggregation_starts_with_profile w user) as [t E].
    rewrite E.
    destruct (result (get_user_stats b64encode w user)) as [st|e];
      [destruct (generate_svg_run st); [destruct (makedirs w _)|]|];
      cbn [fst app]; eexists; reflexivity. }
  split; [|split].
  - intros prog arg rest Ht. apply Hstart; [reflexivity | exact Ht].
  - intros argv u Hlen Hu Ht. apply Hstart; [|exact Ht].
    unfold resolve_username, or_else. rewrite Hu, Ht.
    destruct argv as [|a [|b argv]]; [reflexivity | reflexivity |].
    simpl in Hlen. lia.
  - intros argv o Hlen Hnone Ho Ht. apply Hstart; [|exact Ht].
    unfold resolve_username.
    assert (E : or_else (GITHUB_USERNAME env) (GITHUB_REPOSITORY_OWNER env)
                = Some o).
    { unfold or_else in *. destruct (GITHUB_USERNAME env) as [u|];
        [destruct (truthy u); [discriminate Hnone | exact Ho] | exact Ho]. }
    rewrite E.
    destruct argv as [|a [|b argv]]; [reflexivity | reflexivity |].
    simpl in Hlen. lia.
Qed.

(** X18: without an identity nothing is requested and nothing is written, and
    the status is 1.  An empty command-line argument is such a case even
    when the environment names a user. *)
Theorem no_identity_no_request (env : environ) (w : world) :
  (forall prog rest,
     main b64encode dirname (prog :: EmptyString :: rest) env w = ([], 1%Z)) /\
  (forall argv,
     (List.length argv <= 1)%nat ->
     or_else (GITHUB_USERNAME env) None = None ->
     or_else (GITHUB_REPOSITORY_OWNER env) None = None ->
     main b64encode dirname argv env w = ([], 1%Z)).
Proof.
  split.
  - intros prog rest. reflexivity.
  - intros argv Hlen Hu Ho. unfold main, resolve_username.
    assert (E : or_else (GITHUB_USERNAME env) (GITHUB_REPOSITORY_OWNER env)
                = None \/
                or_else (GITHUB_USERNAME env) (GITHUB_REPOSITORY_OWNER env)
                = Some EmptyString).
    { unfold or_else in *.
      destruct (GITHUB_USERNAME env) as [u|].
      - destruct (truthy u); [discriminate Hu|].
        destruct (GITHUB_REPOSITORY_OWNER env) as [o|]; [|now left].
        destruct o; [now right | discriminate Ho].
      - destruct (GITHUB_REPOSITORY_OWNER env) as [o|]; [|now left].
        destruct o; [now right | discriminate Ho]. }
    destruct argv as [|a [|b argv]]; [| |simpl in Hlen; lia];
      destruct E as [-> | ->]; reflexivity.
Qed.

(** X19: a status of 0 means that the aggregation returned a record, that the
    output directory was made and that the rendering of that record was
    written, as the last action of the run. *)
Theorem exit_zero_means_written
  (argv : list string) (env : environ) (w : world) :
  snd (main b64encode dirname argv env w) = 0%Z ->
  exists user st,
    resolve_username argv env = Some user /\ truthy user = true /\
    result (get_user_stats b64encode w user) = Returned st /\
    makedirs w (dirname (output_path_of env)) = Returned tt /\
    write_file w (output_path_of env) (generate_svg st) = Returned tt /\
    fst (main b64encode dirname argv env w) =
      trace (get_user_stats b64encode w user)
      ++ [ MakeDirs (dirname (output_path_of env));
           WriteFile (output_path_of env) (generate_svg st) ].
Proof.
  destruct (resolve_username argv env) as [user|] eqn:Hu.
  2:{ unfold main. rewrite Hu. discriminate. }
  destruct (truthy user) eqn:Ht.
  2:{ unfold main. rewrite Hu, Ht. discriminate. }
  rewrite (main_run b64encode dirname argv env w user Hu Ht). cbv zeta.
  destruct (result (get_user_stats b64encode w user)) as [st|e] eqn:Hr;
    [|discriminate].
  destruct (generate_svg_run st) as [doc|e] eqn:Hg; [|discriminate].
  apply generate_svg_run_returned in Hg. subst doc.
  destruct (makedirs w _) as [[]|e1] eqn:Hm; [|discriminate].
  destruct (write_file w _ _) as [[]|e2] eqn:Hw; [|discriminate].
  intros _. exists user, st. cbn [fst]. repeat split; assumption || reflexivity.
Qed.

(** X20: when the output directory cannot be made, no document is written and
    the status is 1. *)
Theorem makedirs_failure_writes_nothing
  (argv : list string) (env : environ) (w : world) (e : exn) :
  makedirs w (dirname (output_path_of env)) = Raised e ->
  snd (main b64encode dirname argv env w) = 1%Z /\
  filter is_file_write (fst (main b64encode dirname argv env w)) = [].
Proof.
  intros Hm.
  destruct (resolve_username argv env) as [user|] eqn:Hu.
  2:{ unfold main. rewrite Hu. split; reflexivity. }
  destruct (truthy user) eqn:Ht.
  2:{ unfold main. rewrite Hu, Ht. split; reflexivity. }
  rewrite (main_run b64encode dirname argv env w user Hu Ht). cbv zeta.
  rewrite Hm.
  destruct (result (get_user_stats b64encode w user)) as [st|e'];
    [destruct (generate_svg_run st)|];
    cbn [fst snd]; (split; [reflexivity|]).
  - rewrite filter_app, aggregation_writes_nothing. reflexivity.
  - apply aggregation_writes_nothing.
  - apply aggregation_writes_nothing.
Qed.

(** X21: a run writes at most one document, as its last action, to the
    configured path ([OUTPUT_PATH], or [docs/stats.svg] when it is not
    set), right after making the directory of that path. *)
Theorem single_write_to_configured_path
  (argv : list string) (env : environ) (w : world)
  (path : string) (doc : badge) :
  In (WriteFile path doc) (fst (main b64encode dirname argv env w)) ->
  path = output_path_of env /\
  filter is_file_write (fst (main b64encode dirname argv env w))
    = [WriteFile path doc] /\
  exists t, fst (main b64encode dirname argv env w)
            = t ++ [MakeDirs (dirname path); WriteFile path doc].
Proof.
  destruct (resolve_username argv env) as [user|] eqn:Hu.
  2:{ unfold main. rewrite Hu. intros []. }
  destruct (truthy user) eqn:Ht.
  2:{ unfold main. rewrite Hu, Ht. intros []. }
  rewrite (main_run b64encode dirname argv env w user Hu Ht). cbv zeta.
  pose proof (get_user_stats_reads_only b64encode w user) as Hro.
  pose proof (aggregation_writes_nothing b64encode w user) as Hnw.
  destruct (result (get_user_stats b64encode w user)) as [st|e'].
  - destruct (generate_svg_run st) as [doc'|e2].
    2:{ cbn [fst]. intros H. apply Hro in H. discriminate H. }
    destruct (makedirs w _) as [[]|e1]; cbn [fst]; rewrite in_app_iff.
    + intros [H|[H|[H|[]]]];
        [apply Hro in H; discriminate H | discriminate H |].
      inversion H; subst.
      split; [reflexivity|]. split.
      * rewrite filter_app, Hnw. reflexivity.
      * eexists. reflexivity.
    + intros [H|[H|[]]]; [apply Hro in H; discriminate H | discriminate H].
  - cbn [fst]. intros H. apply Hro in H. discriminate H.
Qed.

End WithLibrary.

Lemma identity_priority_witness :
  exists t,
    fst (main identity_encoding identity_encoding ["generate_stats.py"]
              env_owner_only world_ok)
    = GetProfile "octocat" :: t.
Proof.
  destruct (identity_priority identity_encoding identity_encoding
              env_owner_only world_ok) as [_ [_ Howner]].
  apply (Howner ["generate_stats.py"] "octocat"%string);
    solve [reflexivity | simpl; lia].
Defined.

Lemma no_identity_no_request_witness :
  main identity_encoding identity_encoding ["generate_stats.py"]
       no_environ world_ok = ([], 1%Z) /\
  main identity_encoding identity_encoding
       ["generate_stats.py"; EmptyString] env_named world_ok = ([], 1%Z).
Proof.
  split.
  - apply (proj2 (no_identity_no_request identity_encoding identity_encoding
                    no_environ world_ok));
      solve [reflexivity | simpl; lia].
  - apply (proj1 (no_identity_no_request identity_encoding identity_encoding
                    env_named world_ok)).
Defined.

Lemma exit_zero_means_written_witness :
  exists st,
    result (get_user_stats identity_encoding world_bare "octocat") = Returned st /\
    write_file world_bare "out/card.svg" (generate_svg st) = Returned tt.
Proof.
  destruct (exit_zero_means_written identity_encoding identity_encoding
              ["generate_stats.py"; "octocat"%string] env_named world_bare
              eq_refl)
    as [user [st [Hu [_ [Hr [_ [Hw _]]]]]]].
  injection Hu as <-.
  exists st. split; [exact Hr | exact Hw].
Defined.

Lemma makedirs_failure_writes_nothing_witness :
  snd (main identity_encoding identity_encoding
            ["generate_stats.py"; "octocat"%string] no_environ world_readonly)
  = 1%Z /\
  filter is_file_write
    (fst (main identity_encoding identity_encoding
               ["generate_stats.py"; "octocat"%string] no_environ
               world_readonly)) = [].
Proof.
  apply (makedirs_failure_writes_nothing identity_encoding identity_encoding
           ["generate_stats.py"; "octocat"%string] no_environ world_readonly
           OtherError).
  reflexivity.
Defined.

Lemma single_write_to_configured_path_witness :
  exists doc,
    filter is_file_write
      (fst (main identity_encoding identity_encoding
                 ["generate_stats.py"; "octocat"%string] env_named world_bare))
    = [WriteFile "out/card.svg" doc].
Proof.
  eexists.
  refine (proj1 (proj2 (single_write_to_configured_path
                          identity_encoding identity_encoding
                          ["generate_stats.py"; "octocat"%string]
                          env_named world_bare "out/card.svg" _ _))).
  cbv. repeat (first [left; reflexivity | right]).
Defined.

End MainExtras.
